(** * Verification of the brain-tumour segmentation viewer's Python sources

    The development embeds four source files:

    - [app/objects/mask_object.py]                      (module [MaskObject])
    - [app/handlers/file_reader.py]                     (module [FileReader])
    - [app/model_controller/segtran_inference.py]       (module [SegtranInference])
    - [models/segtran_modified/code/receptivefield/base.py] (module [RF])

    Python objects are mutable; every method is embedded as a function that
    takes the object's state and returns the new state together with either
    the value returned or the exception raised. *)

From Stdlib Require Import ZArith QArith Lia.
From stdpp Require Import base option list strings gmap.

Local Open Scope Z_scope.

(** ** Python exceptions and results *)

(** The exceptions the embedded code can raise.  [Exception msg] is the
    generic [raise Exception(msg)]; [SystemExit] is what the builtin [exit]
    raises; [OverflowError] is what a division of ints raises beyond the
    largest float; [Foreign] stands for anything raised inside library code
    that the sources only call (VTK, torch, the model's gradient function). *)
Inductive exn : Type :=
| Exception (msg : string)
| TypeError
| IndexError
| KeyError (key : string)
| AttributeError (name : string)
| SystemExit (code : Z)
| OverflowError
| Foreign (tag : string).

Inductive result (A : Type) : Type :=
| Ok (a : A)
| Raise (e : exn).
Arguments Ok {A} a.
Arguments Raise {A} e.

Definition rbind {A B : Type} (r : result A) (k : A → result B) : result B :=
  match r with
  | Ok a => k a
  | Raise e => Raise e
  end.

Definition raises {A : Type} (r : result A) : Prop :=
  match r with Ok _ => False | Raise _ => True end.

Declare Scope result_scope.
Delimit Scope result_scope with result.
Notation "x <-? c1 ;; c2" := (rbind c1 (λ x, c2))
  (at level 100, c1 at next level, right associativity) : result_scope.

(** [l[i]] for a Python list and a Python integer index: a negative index
    counts from the end, anything outside [-len, len) is an [IndexError]. *)
Definition py_index {A : Type} (l : list A) (i : Z) : result A :=
  let n := Z.of_nat (length l) in
  let j := if i <? 0 then n + i else i in
  if (0 <=? j) && (j <? n) then
    match l !! Z.to_nat j with
    | Some a => Ok a
    | None => Raise IndexError
    end
  else Raise IndexError.

(** For an index that comes from [range], this is plain list lookup. *)
Lemma py_index_nat {A : Type} (l : list A) (i : nat) :
  py_index l (Z.of_nat i)
    = match l !! i with Some a => Ok a | None => Raise IndexError end.
Proof.
  unfold py_index.
  destruct (Z.ltb_spec (Z.of_nat i) 0) as [?|_]; [lia |].
  destruct (Z.leb_spec 0 (Z.of_nat i)) as [_|?]; [| lia]. simpl.
  rewrite Nat2Z.id.
  destruct (Z.ltb_spec (Z.of_nat i) (Z.of_nat (length l))) as [Hlt|Hge].
  - done.
  - rewrite lookup_ge_None_2; [done | lia].
Qed.

(** [o.name] on an object whose attributes are the dictionary [o]. *)
Definition getattr {V : Type} (o : gmap string V) (name : string) : result V :=
  match o !! name with
  | Some v => Ok v
  | None => Raise (AttributeError name)
  end.

(** [o.name = v]. *)
Definition setattr {V : Type} (o : gmap string V) (name : string) (v : V)
  : gmap string V :=
  <[name := v]> o.

(** ** [app/objects/mask_object.py] *)

Module MaskObject.
Section MaskVisual.
(** The values stored in attributes (a mask object, VTK pickers, ...). *)
Context {V : Type}.

(** A [MaskVisual] instance is its attribute dictionary: Python lets a
    caller attach further attributes, and [set_visual] has to leave those
    alone. *)
Definition MaskVisual : Type := gmap string V.

(** [__init__(self, mask, opac_pk, smooth_pk)], run on the empty instance. *)
Definition init (mask opac_pk smooth_pk : V) : MaskVisual :=
  let self : MaskVisual := ∅ in
  let self := setattr self "mask" mask in
  let self := setattr self "opacity_pk" opac_pk in
  let self := setattr self "smoothness_pk" smooth_pk in
  self.

(** [get_visual(self)]: the tuple of the three attributes. *)
Definition get_visual (self : MaskVisual) : result (V * V * V) :=
  (m <-? getattr self "mask" ;;
   o <-? getattr self "opacity_pk" ;;
   s <-? getattr self "smoothness_pk" ;;
   Ok (m, o, s))%result.

(** [set_visual(self, mask, opac_pk, smooth_pk)]. *)
Definition set_visual (self : MaskVisual) (mask opac_pk smooth_pk : V)
  : MaskVisual :=
  let self := setattr self "mask" mask in
  let self := setattr self "opacity_pk" opac_pk in
  let self := setattr self "smoothness_pk" smooth_pk in
  self.

(** The attribute names [set_visual] assigns. *)
Definition visual_attrs : list string :=
  ["mask"; "opacity_pk"; "smoothness_pk"].

Ltac mv_unfold :=
  unfold get_visual, set_visual, init, getattr, setattr, visual_attrs,
    MaskVisual in *; cbv zeta.

Lemma set_visual_lookup_other (self : MaskVisual) mask opac_pk smooth_pk name :
  name ∉ visual_attrs →
  set_visual self mask opac_pk smooth_pk !! name = self !! name.
Proof.
  intros Hn. mv_unfold.
  by rewrite !lookup_insert_ne by (intros <-; apply Hn; set_solver).
Qed.

(** C10. [set_visual(mask, opac_pk, smooth_pk)] followed by [get_visual()]
    returns exactly [(mask, opac_pk, smooth_pk)], whatever the instance held
    before; [set_visual] leaves every attribute other than the three it
    assigns as it was, and the instance ends up with the same three
    attribute values a fresh [MaskVisual(mask, opac_pk, smooth_pk)] has. *)
Theorem set_visual_get_visual (self : MaskVisual) (mask opac_pk smooth_pk : V) :
  get_visual (set_visual self mask opac_pk smooth_pk)
    = Ok (mask, opac_pk, smooth_pk)
  ∧ (∀ name, name ∉ visual_attrs →
       set_visual self mask opac_pk smooth_pk !! name = self !! name)
  ∧ (∀ name, name ∈ visual_attrs →
       set_visual self mask opac_pk smooth_pk !! name
         = init mask opac_pk smooth_pk !! name).
Proof.
  split; [| split].
  - mv_unfold.
    rewrite lookup_insert_ne by done.
    rewrite lookup_insert_ne by done.
    rewrite lookup_insert_eq. simpl.
    rewrite lookup_insert_ne by done.
    rewrite lookup_insert_eq. simpl.
    by rewrite lookup_insert_eq.
  - intros name. apply set_visual_lookup_other.
  - intros name Hin. unfold visual_attrs in Hin.
    mv_unfold.
    apply elem_of_cons in Hin as [-> | Hin].
    { by rewrite !lookup_insert_ne, !lookup_insert_eq by done. }
    apply elem_of_cons in Hin as [-> | Hin].
    { rewrite lookup_insert_ne by done. rewrite lookup_insert_eq.
      rewrite lookup_insert_ne by done. by rewrite lookup_insert_eq. }
    apply elem_of_cons in Hin as [-> | Hin].
    { by rewrite !lookup_insert_eq. }
    by apply elem_of_nil in Hin.
Qed.

(** X22. [set_visual] overwrites: of two calls in a row only the second
    counts, and on a constructed instance it leaves exactly the instance the
    constructor builds from the new values; [get_visual] on a constructed
    instance returns the constructor's arguments. *)
Theorem set_visual_overwrites (self : MaskVisual) (a b c mask opac_pk
    smooth_pk : V) :
  set_visual (set_visual self a b c) mask opac_pk smooth_pk
    = set_visual self mask opac_pk smooth_pk
  ∧ set_visual (init a b c) mask opac_pk smooth_pk
    = init mask opac_pk smooth_pk
  ∧ get_visual (init mask opac_pk smooth_pk) = Ok (mask, opac_pk, smooth_pk).
Proof.
  assert (Hlast : ∀ s : MaskVisual,
            set_visual (set_visual s a b c) mask opac_pk smooth_pk
              = set_visual s mask opac_pk smooth_pk).
  { intros s. mv_unfold. apply map_eq. intros k.
    rewrite !lookup_insert. by repeat case_decide. }
  split; [apply Hlast |]. split.
  - change (init a b c) with (set_visual (∅ : MaskVisual) a b c).
    rewrite Hlast. reflexivity.
  - change (init mask opac_pk smooth_pk)
      with (set_visual (∅ : MaskVisual) mask opac_pk smooth_pk).
    mv_unfold.
    rewrite lookup_insert_ne by done.
    rewrite lookup_insert_ne by done.
    rewrite lookup_insert_eq. simpl.
    rewrite lookup_insert_ne by done.
    rewrite lookup_insert_eq. simpl.
    by rewrite lookup_insert_eq.
Qed.
End MaskVisual.
End MaskObject.

(** ** [models/segtran_modified/code/receptivefield/base.py] *)

(** The arithmetic [compute] performs on the estimated rectangles: Python's
    binary [-] and true division [/] on whatever numbers the estimator
    returns (NumPy integers and floats at run time), and integer literals.
    The theorems below hold for every interpretation; [Q_PyNum] is the exact
    one used to run examples.  [/] is only ever applied to the literal 2, so
    it is taken as total. *)
Class PyNum (num : Type) : Type := {
  py_sub : num → num → num;
  py_truediv : num → num → num;
  py_of_Z : Z → num
}.

#[export] Instance Q_PyNum : PyNum Q := {|
  py_sub := Qminus;
  py_truediv := Qdiv;
  py_of_Z := inject_Z
|}.

(** The named tuples of [receptivefield/types.py].  That file is not among the
    sources at hand; the fields are the ones [base.py] reads and the
    constructor calls it makes. *)
Module GridPoint.
Record t : Type := mk { x : Z; y : Z }.
End GridPoint.

Module GridShape.
Record t : Type := mk { n : Z; w : Z; h : Z; c : Z }.
End GridShape.

Module ImageShape.
Record t : Type := mk { w : Z; h : Z; c : Z }.
End ImageShape.

Module Size.
Record t (A : Type) : Type := mk { w : A; h : A }.
Arguments mk {A} w h.
Arguments w {A} _.
Arguments h {A} _.
End Size.

Module ReceptiveFieldRect.
Record t (num : Type) : Type := mk { x : num; y : num; w : num; h : num }.
Arguments mk {num} x y w h.
Arguments x {num} _.
Arguments y {num} _.
Arguments w {num} _.
Arguments h {num} _.
End ReceptiveFieldRect.

Module ReceptiveFieldDescription.
Record t (num : Type) : Type :=
  mk { offset : num * num; stride : num * num; size : Size.t num }.
Arguments mk {num} offset stride size.
Arguments offset {num} _.
Arguments stride {num} _.
Arguments size {num} _.
End ReceptiveFieldDescription.

Module FeatureMapDescription.
Record t (num : Type) : Type :=
  mk { size : Size.t Z; rf : ReceptiveFieldDescription.t num }.
Arguments mk {num} size rf.
Arguments size {num} _.
Arguments rf {num} _.
End FeatureMapDescription.

Module RF.
Section ReceptiveField.
Context {num : Type} {NUM : PyNum num}.

(** What the abstract class leaves open: the type of the wrapped model, of
    the gradient function built for it, of a gradient map (an [ndarray]),
    of the image and keyword arguments handed to the plotting helpers, and
    of the arguments of [compute] ([*args, **kwargs]). *)
Context {model gradfn ndarray image kwargs args : Type}.

(** A [ReceptiveField] instance: the attributes [__init__] creates.  An
    attribute holding [None] is [None] here. *)
Record ReceptiveField : Type := mkRF {
  _model_func : model;
  _gradient_function : option gradfn;
  _input_shape : option GridShape.t;
  _output_shapes : option (list GridShape.t);
  _rf_params : option (list (ReceptiveFieldDescription.t num));
  _built : bool
}.

(** One call of [_get_gradient_from_grid_points]: the grid points (one per
    feature map) and the intensity of the impulse. *)
Record Probe : Type := mkProbe {
  points : list GridPoint.t;
  intensity : num
}.

(** The instance together with the history of gradient calls made on it
    (a ghost log: the code keeps no such list). *)
Record World : Type := mkWorld {
  self : ReceptiveField;
  probes : list Probe
}.

(** A method body: it may change the instance and either returns or
    raises; the state at the raise is kept. *)
Definition M (A : Type) : Type := World → result A * World.

Definition ret {A : Type} (a : A) : M A := λ w, (Ok a, w).
Definition throw {A : Type} (e : exn) : M A := λ w, (Raise e, w).
Definition bind {A B : Type} (m : M A) (k : A → M B) : M B :=
  λ w, match m w with
       | (Ok a, w') => k a w'
       | (Raise e, w') => (Raise e, w')
       end.
Definition lift {A : Type} (r : result A) : M A := λ w, (r, w).
Definition get_self : M ReceptiveField := λ w, (Ok (self w), w).
Definition put_self (s : ReceptiveField) : M unit :=
  λ w, (Ok tt, mkWorld s (probes w)).

Declare Scope rf_scope.
Delimit Scope rf_scope with rf.
Notation "x <- c1 ;; c2" := (bind c1 (λ x, c2))
  (at level 100, c1 at next level, right associativity) : rf_scope.
Notation "c1 ;; c2" := (bind c1 (λ _, c2))
  (at level 100, right associativity) : rf_scope.
Local Open Scope rf_scope.

(** *** The parts supplied from outside [base.py] *)

(** The two abstract methods, implemented per framework by subclasses, and
    [receptivefield.common.estimate_rf_from_gradients].  Each may raise;
    the abstract methods may read the instance. *)
Variable _prepare_gradient_func :
  ReceptiveField → args → result (gradfn * GridShape.t * list GridShape.t).
Variable _get_gradient_from_grid_points :
  ReceptiveField → list GridPoint.t → num → result (list ndarray).
Variable estimate_rf_from_gradients :
  list ndarray → result (list (ReceptiveFieldRect.t num)).

(** A call [self._get_gradient_from_grid_points(points, intensity)]; the
    call is entered in the log whether or not it raises. *)
Definition call_get_gradient_from_grid_points
    (points : list GridPoint.t) (intensity : num) : M (list ndarray) :=
  λ w, (_get_gradient_from_grid_points (self w) points intensity,
        mkWorld (self w) (probes w ++ [mkProbe points intensity])).

(** *** Python primitives on attributes that may hold [None] *)

(** Iterating ([zip], a comprehension) over an attribute. *)
Definition py_iter {A : Type} (o : option (list A)) : result (list A) :=
  match o with
  | Some l => Ok l
  | None => Raise TypeError
  end.

(** [len(o)]. *)
Definition py_len {A : Type} (o : option (list A)) : result nat :=
  match o with
  | Some l => Ok (length l)
  | None => Raise TypeError
  end.

(** [o[i]]: [None] is not subscriptable. *)
Definition py_subscript {A : Type} (o : option (list A)) (i : Z) : result A :=
  match o with
  | Some l => py_index l i
  | None => Raise TypeError
  end.

(** *** [__init__] *)

Definition init (model_func : model) : ReceptiveField :=
  {| _model_func := model_func;
     _gradient_function := None;
     _input_shape := None;
     _output_shapes := None;
     _rf_params := None;
     _built := false |}.

(** A freshly constructed instance, no gradient call made yet. *)
Definition new (model_func : model) : World :=
  mkWorld (init model_func) [].

(** Attribute assignments. *)
Definition set_built (b : bool) (s : ReceptiveField) : ReceptiveField :=
  mkRF (_model_func s) (_gradient_function s) (_input_shape s)
       (_output_shapes s) (_rf_params s) b.
Definition set_gradient_function (g : gradfn) (s : ReceptiveField) :=
  mkRF (_model_func s) (Some g) (_input_shape s)
       (_output_shapes s) (_rf_params s) (_built s).
Definition set_input_shape (i : GridShape.t) (s : ReceptiveField) :=
  mkRF (_model_func s) (_gradient_function s) (Some i)
       (_output_shapes s) (_rf_params s) (_built s).
Definition set_output_shapes (o : list GridShape.t) (s : ReceptiveField) :=
  mkRF (_model_func s) (_gradient_function s) (_input_shape s)
       (Some o) (_rf_params s) (_built s).
Definition set_rf_params
    (r : list (ReceptiveFieldDescription.t num)) (s : ReceptiveField) :=
  mkRF (_model_func s) (_gradient_function s) (_input_shape s)
       (_output_shapes s) (Some r) (_built s).

(** *** [_check] and the result accessors *)

Definition not_computed : exn :=
  Exception "Receptive field not computed. Run compute function.".

Definition _check : M unit :=
  s <- get_self ;;
  if negb (_built s) then throw not_computed else ret tt.

Definition feature_maps_desc : M (list (FeatureMapDescription.t num)) :=
  _check ;;
  s <- get_self ;;
  sizes <- lift (py_iter (_output_shapes s)) ;;
  rfs <- lift (py_iter (_rf_params s)) ;;
  ret (zip_with
         (λ size rf,
            FeatureMapDescription.mk
              (Size.mk (GridShape.w size) (GridShape.h size)) rf)
         sizes rfs).

Definition input_shape : M ImageShape.t :=
  _check ;;
  s <- get_self ;;
  match _input_shape s with
  | Some i =>
      ret (ImageShape.mk (GridShape.w i) (GridShape.h i) (GridShape.c i))
  | None => throw (AttributeError "w")
  end.

Definition output_shapes : M (list (Size.t Z)) :=
  _check ;;
  s <- get_self ;;
  sizes <- lift (py_iter (_output_shapes s)) ;;
  ret (map (λ size, Size.mk (GridShape.w size) (GridShape.h size)) sizes).

Definition num_feature_maps : M nat :=
  _check ;;
  s <- get_self ;;
  lift (py_len (_output_shapes s)).

(** *** [_build_gradient_func] *)

Definition _build_gradient_func (a : args) : M unit :=
  s <- get_self ;;
  r <- lift (_prepare_gradient_func s a) ;;
  let '(gradient_function, input_shape, output_shapes) := r in
  s <- get_self ;;
  put_self (set_output_shapes output_shapes
             (set_input_shape input_shape
               (set_gradient_function gradient_function
                 (set_built true s)))).

(** *** [_get_gradient_activation_at_map_center] *)

(** The [for fm in range(self.num_feature_maps)] loop, [points] being the
    list built so far.  The loop leaves the instance alone, so it is given
    the value of [self._output_shapes] instead of the whole state. *)
Fixpoint center_points_loop
    (output_shapes : option (list GridShape.t))
    (center_offsets : list GridPoint.t)
    (fms : list nat) (points : list GridPoint.t)
  : result (list GridPoint.t) :=
  match fms with
  | [] => Ok points
  | fm :: fms =>
      (output_shape <-? py_subscript output_shapes (Z.of_nat fm) ;;
       center_offset <-? py_index center_offsets (Z.of_nat fm) ;;
       let w := GridShape.w output_shape in
       let h := GridShape.h output_shape in
       let cx := if w `mod` 2 =? 0 then w `div` 2 - 1 else w `div` 2 in
       let cy := if h `mod` 2 =? 0 then h `div` 2 - 1 else h `div` 2 in
       let cx := cx + GridPoint.x center_offset in
       let cy := cy + GridPoint.y center_offset in
       center_points_loop output_shapes center_offsets fms
         (points ++ [GridPoint.mk cx cy]))%result
  end.

Definition _get_gradient_activation_at_map_center
    (center_offsets : list GridPoint.t) (intensity : num)
  : M (list ndarray) :=
  n <- num_feature_maps ;;
  s <- get_self ;;
  points <- lift (center_points_loop (_output_shapes s) center_offsets
                    (seq 0 n) []) ;;
  call_get_gradient_from_grid_points points intensity.

(** *** [compute] *)

(** [self._rf_params.append(rf_params)]. *)
Definition append_rf_params (d : ReceptiveFieldDescription.t num) : M unit :=
  s <- get_self ;;
  match _rf_params s with
  | Some l => put_self (set_rf_params (l ++ [d]) s)
  | None => throw (AttributeError "append")
  end.

(** The body of the final loop of [compute], up to the [append]. *)
Definition rf_params_of
    (rf_at_point00 rf_at00 rf_at11 : ReceptiveFieldRect.t num)
  : ReceptiveFieldDescription.t num :=
  let x0 := py_sub (ReceptiveFieldRect.w rf_at_point00)
              (py_truediv (ReceptiveFieldRect.w rf_at00) (py_of_Z 2)) in
  let y0 := py_sub (ReceptiveFieldRect.h rf_at_point00)
              (py_truediv (ReceptiveFieldRect.h rf_at00) (py_of_Z 2)) in
  let dx := py_sub (ReceptiveFieldRect.x rf_at11)
              (ReceptiveFieldRect.x rf_at00) in
  let dy := py_sub (ReceptiveFieldRect.y rf_at11)
              (ReceptiveFieldRect.y rf_at00) in
  let size := Size.mk (ReceptiveFieldRect.w rf_at00)
                (ReceptiveFieldRect.h rf_at00) in
  ReceptiveFieldDescription.mk (x0, y0) (dx, dy) size.

(** [for fm, (rf_at_point00, rf_at00, rf_at11) in enumerate(zip(...))]. *)
Fixpoint compute_loop
    (l : list (ReceptiveFieldRect.t num
               * (ReceptiveFieldRect.t num * ReceptiveFieldRect.t num)))
  : M unit :=
  match l with
  | [] => ret tt
  | (rf_at_point00, (rf_at00, rf_at11)) :: l =>
      append_rf_params (rf_params_of rf_at_point00 rf_at00 rf_at11) ;;
      compute_loop l
  end.

(** Both probes at the map centre pass [intensity=1]; the probe at the grid
    start leaves the abstract method's default, [1.0]. *)
Definition compute (a : args) : M (list (FeatureMapDescription.t num)) :=
  _build_gradient_func a ;;
  n <- num_feature_maps ;;
  rf_grads00 <- _get_gradient_activation_at_map_center
                  (replicate n (GridPoint.mk 0 0)) (py_of_Z 1) ;;
  rfs_at00 <- lift (estimate_rf_from_gradients rf_grads00) ;;
  n <- num_feature_maps ;;
  rf_grads11 <- _get_gradient_activation_at_map_center
                  (replicate n (GridPoint.mk 1 1)) (py_of_Z 1) ;;
  rfs_at11 <- lift (estimate_rf_from_gradients rf_grads11) ;;
  n <- num_feature_maps ;;
  rf_grads_point00 <- call_get_gradient_from_grid_points
                        (replicate n (GridPoint.mk 0 0)) (py_of_Z 1) ;;
  rfs_at_point00 <- lift (estimate_rf_from_gradients rf_grads_point00) ;;
  s <- get_self ;;
  put_self (set_rf_params [] s) ;;
  compute_loop (zip rfs_at_point00 (zip rfs_at00 rfs_at11)) ;;
  feature_maps_desc.

(** *** [plot_rf_grid] *)

(** The arguments [plot_rf_grid] hands to
    [receptivefield.plotting.plot_receptive_grid]; the drawing itself is
    outside the embedding. *)
Record PlotCall : Type := mkPlotCall {
  pc_input_shape : option GridShape.t;
  pc_output_shape : GridShape.t;
  pc_rf_params : ReceptiveFieldDescription.t num;
  pc_custom_image : option image;
  pc_plot_naive_rf : bool;
  pc_plot_params : kwargs
}.

(** The keyword arguments are evaluated left to right. *)
Definition plot_rf_grid (fm_id : Z) (custom_image : option image)
    (plot_naive_rf : bool) (plot_params : kwargs) : M PlotCall :=
  s <- get_self ;;
  let input_shape := _input_shape s in
  output_shape <- lift (py_subscript (_output_shapes s) fm_id) ;;
  rf_params <- lift (py_subscript (_rf_params s) fm_id) ;;
  ret (mkPlotCall input_shape output_shape rf_params
         custom_image plot_naive_rf plot_params).

(** *** Derived notions used in the statements *)

(** The instance right after [_build_gradient_func] stored what
    [_prepare_gradient_func] returned. *)
Definition built_state (s : ReceptiveField) (gradient_function : gradfn)
    (input_shape : GridShape.t) (output_shapes : list GridShape.t)
  : ReceptiveField :=
  set_output_shapes output_shapes
    (set_input_shape input_shape
      (set_gradient_function gradient_function (set_built true s))).

(** One pass of the body of [center_points_loop]. *)
Definition center_point (center_offset : GridPoint.t)
    (output_shape : GridShape.t) : GridPoint.t :=
  let w := GridShape.w output_shape in
  let h := GridShape.h output_shape in
  GridPoint.mk
    ((if w `mod` 2 =? 0 then w `div` 2 - 1 else w `div` 2)
       + GridPoint.x center_offset)
    ((if h `mod` 2 =? 0 then h `div` 2 - 1 else h `div` 2)
       + GridPoint.y center_offset).

(** The estimate obtained from one probe: gradient maps at [points] with
    unit intensity, then the rectangle estimator. *)
Definition estimate_at (s : ReceptiveField) (points : list GridPoint.t)
  : result (list (ReceptiveFieldRect.t num)) :=
  (grads <-? _get_gradient_from_grid_points s points (py_of_Z 1) ;;
   estimate_rf_from_gradients grads)%result.

(** The three probes of [compute], in call order, for an instance whose
    output shapes are known. *)
Definition canonical_probes (s : ReceptiveField) : list Probe :=
  match _output_shapes s with
  | Some shapes =>
      [ mkProbe (map (center_point (GridPoint.mk 0 0)) shapes) (py_of_Z 1);
        mkProbe (map (center_point (GridPoint.mk 1 1)) shapes) (py_of_Z 1);
        mkProbe (replicate (length shapes) (GridPoint.mk 0 0)) (py_of_Z 1) ]
  | None => []
  end.

Definition mk_feature_map (size : GridShape.t)
    (rf : ReceptiveFieldDescription.t num) : FeatureMapDescription.t num :=
  FeatureMapDescription.mk
    (Size.mk (GridShape.w size) (GridShape.h size)) rf.

(** The states an instance can be in: constructed, then any number of
    [compute] calls, each of which may have returned or raised.  (The
    accessors and the plotting methods do not change the instance.) *)
Inductive reachable : World → Prop :=
| reachable_new model_func : reachable (new model_func)
| reachable_compute a w : reachable w → reachable (compute a w).2.

(** *** The guard and the accessors, unfolded *)

Lemma _check_eq w :
  _check w = (if _built (self w) then Ok tt else Raise not_computed, w).
Proof. unfold _check, bind, get_self. by destruct (_built (self w)). Qed.

Lemma num_feature_maps_eq w :
  num_feature_maps w
    = (if _built (self w) then py_len (_output_shapes (self w))
       else Raise not_computed, w).
Proof.
  unfold num_feature_maps, bind. rewrite _check_eq.
  by destruct (_built (self w)).
Qed.

Lemma feature_maps_desc_eq w :
  feature_maps_desc w
    = (if _built (self w) then
         (sizes <-? py_iter (_output_shapes (self w)) ;;
          rfs <-? py_iter (_rf_params (self w)) ;;
          Ok (zip_with mk_feature_map sizes rfs))%result
       else Raise not_computed, w).
Proof.
  unfold feature_maps_desc, bind. rewrite _check_eq.
  destruct (_built (self w)); [| done]. unfold get_self, lift.
  destruct (_output_shapes (self w)); [| done].
  by destruct (_rf_params (self w)).
Qed.

Lemma input_shape_eq w :
  input_shape w
    = (if _built (self w) then
         match _input_shape (self w) with
         | Some i => Ok (ImageShape.mk (GridShape.w i) (GridShape.h i)
                           (GridShape.c i))
         | None => Raise (AttributeError "w")
         end
       else Raise not_computed, w).
Proof.
  unfold input_shape, bind. rewrite _check_eq.
  destruct (_built (self w)); [| done]. unfold get_self.
  by destruct (_input_shape (self w)).
Qed.

Lemma output_shapes_eq w :
  output_shapes w
    = (if _built (self w) then
         (sizes <-? py_iter (_output_shapes (self w)) ;;
          Ok (map (λ size, Size.mk (GridShape.w size) (GridShape.h size))
                sizes))%result
       else Raise not_computed, w).
Proof.
  unfold output_shapes, bind. rewrite _check_eq.
  destruct (_built (self w)); [| done]. unfold get_self, lift.
  by destruct (_output_shapes (self w)).
Qed.

(** *** The centre loop *)

Lemma center_points_loop_drop shapes center_offsets m : ∀ k acc,
  (k + m = length shapes)%nat →
  (length shapes ≤ length center_offsets)%nat →
  center_points_loop (Some shapes) center_offsets (seq k m) acc
    = Ok (acc ++ zip_with (λ shape off, center_point off shape)
                    (drop k shapes) (drop k center_offsets)).
Proof.
  induction m as [|m IH]; intros k acc Hk Hlen; simpl.
  - rewrite drop_ge by lia. simpl. by rewrite app_nil_r.
  - rewrite !py_index_nat.
    destruct (lookup_lt_is_Some_2 shapes k) as [shape Hshape]; [lia |].
    destruct (lookup_lt_is_Some_2 center_offsets k) as [off Hoff]; [lia |].
    rewrite Hshape, Hoff. simpl.
    rewrite IH by lia.
    rewrite (drop_S shapes shape k Hshape).
    rewrite (drop_S center_offsets off k Hoff). simpl.
    by rewrite <- app_assoc.
Qed.

Lemma center_points_loop_seq shapes center_offsets :
  (length shapes ≤ length center_offsets)%nat →
  center_points_loop (Some shapes) center_offsets
      (seq 0 (length shapes)) []
    = Ok (zip_with (λ shape off, center_point off shape)
            shapes center_offsets).
Proof.
  intros Hlen.
  by rewrite (center_points_loop_drop shapes center_offsets
                (length shapes) 0%nat []) by (done || lia).
Qed.

(** With the gradient function built, the method reduces to one call of
    the abstract method on the centre points. *)
Lemma center_call_eq w shapes center_offsets i :
  _built (self w) = true →
  _output_shapes (self w) = Some shapes →
  (length shapes ≤ length center_offsets)%nat →
  _get_gradient_activation_at_map_center center_offsets i w
    = call_get_gradient_from_grid_points
        (zip_with (λ shape off, center_point off shape)
           shapes center_offsets) i w.
Proof.
  intros Hb Hs Hlen. unfold _get_gradient_activation_at_map_center.
  unfold bind at 1. rewrite num_feature_maps_eq, Hb, Hs. simpl.
  unfold bind, get_self, lift. rewrite Hs.
  by rewrite center_points_loop_seq.
Qed.

(** *** The final loop of [compute] *)

Lemma compute_loop_eq l : ∀ w acc,
  _rf_params (self w) = Some acc →
  compute_loop l w
    = (Ok tt,
       mkWorld
         (set_rf_params
            (acc ++ map (λ t, rf_params_of t.1 t.2.1 t.2.2) l) (self w))
         (probes w)).
Proof.
  induction l as [|[p [c0 c1]] l IH]; intros w acc Hacc; simpl.
  - unfold ret. rewrite app_nil_r. destruct w as [s tr]; simpl in *.
    destruct s; simpl in *. by subst.
  - unfold bind at 1. unfold append_rf_params, bind, get_self.
    rewrite Hacc. unfold put_self.
    rewrite (IH _ (acc ++ [rf_params_of p c0 c1])) by done.
    simpl. by rewrite <- app_assoc.
Qed.

(** *** [compute], step by step *)

Lemma _build_gradient_func_eq a w :
  _build_gradient_func a w
    = match _prepare_gradient_func (self w) a with
      | Ok (gf, ishape, oshapes) =>
          (Ok tt, mkWorld (built_state (self w) gf ishape oshapes) (probes w))
      | Raise e => (Raise e, w)
      end.
Proof.
  unfold _build_gradient_func, bind, get_self, lift.
  by destruct (_prepare_gradient_func (self w) a) as [[[gf i] o]|e].
Qed.

Lemma center_probe_eq w shapes off i :
  _built (self w) = true →
  _output_shapes (self w) = Some shapes →
  _get_gradient_activation_at_map_center
      (replicate (length shapes) off) i w
    = call_get_gradient_from_grid_points
        (map (center_point off) shapes) i w.
Proof.
  intros Hb Hs.
  rewrite (center_call_eq w shapes) by (done || by rewrite length_replicate).
  by rewrite zip_with_replicate_r_eq.
Qed.

(** What [compute] does once the gradient function is built, as a function
    of the three probe estimates: [s1] is the instance after the build,
    [tr] the log before the call. *)
Definition compute_outcome (s1 : ReceptiveField)
    (oshapes : list GridShape.t) (tr : list Probe)
  : result (list (FeatureMapDescription.t num)) * World :=
  let P := canonical_probes s1 in
  match estimate_at s1 (map (center_point (GridPoint.mk 0 0)) oshapes) with
  | Raise e => (Raise e, mkWorld s1 (tr ++ take 1 P))
  | Ok rfs_at00 =>
    match estimate_at s1 (map (center_point (GridPoint.mk 1 1)) oshapes) with
    | Raise e => (Raise e, mkWorld s1 (tr ++ take 2 P))
    | Ok rfs_at11 =>
      match estimate_at s1
              (replicate (length oshapes) (GridPoint.mk 0 0)) with
      | Raise e => (Raise e, mkWorld s1 (tr ++ P))
      | Ok rfs_at_point00 =>
          let rfs := map (λ t, rf_params_of t.1 t.2.1 t.2.2)
                       (zip rfs_at_point00 (zip rfs_at00 rfs_at11)) in
          (Ok (zip_with mk_feature_map oshapes rfs),
           mkWorld (set_rf_params rfs s1) (tr ++ P))
      end
    end
  end.

Lemma compute_eq a w :
  compute a w
    = match _prepare_gradient_func (self w) a with
      | Ok (gf, ishape, oshapes) =>
          compute_outcome (built_state (self w) gf ishape oshapes)
            oshapes (probes w)
      | Raise e => (Raise e, w)
      end.
Proof.
  unfold compute. unfold bind at 1. rewrite _build_gradient_func_eq.
  destruct (_prepare_gradient_func (self w) a) as [[[gf ishape] o]|e];
    [| done].
  set (s1 := built_state (self w) gf ishape o).
  assert (Hb : _built s1 = true) by done.
  assert (Hs : _output_shapes s1 = Some o) by done.
  unfold compute_outcome, canonical_probes. rewrite Hs.
  unfold estimate_at. simpl take.
  (* probe at the centre *)
  unfold bind at 1. rewrite num_feature_maps_eq. simpl self.
  rewrite Hb, Hs. simpl py_len. cbv iota beta.
  unfold bind at 1. rewrite center_probe_eq by done.
  unfold call_get_gradient_from_grid_points at 1. simpl self. simpl probes.
  destruct (_get_gradient_from_grid_points s1
              (map (center_point (GridPoint.mk 0 0)) o) (py_of_Z 1))
    as [g00|e]; [| done].
  simpl rbind. unfold bind at 1. unfold lift at 1.
  destruct (estimate_rf_from_gradients g00) as [r00|e]; [| done].
  (* probe at the centre offset by (1, 1) *)
  unfold bind at 1. rewrite num_feature_maps_eq. simpl self.
  rewrite Hb, Hs. simpl py_len. cbv iota beta.
  unfold bind at 1. rewrite center_probe_eq by done.
  unfold call_get_gradient_from_grid_points at 1. simpl self. simpl probes.
  rewrite <- !app_assoc. simpl app.
  destruct (_get_gradient_from_grid_points s1
              (map (center_point (GridPoint.mk 1 1)) o) (py_of_Z 1))
    as [g11|e]; [| done].
  simpl rbind. unfold bind at 1. unfold lift at 1.
  destruct (estimate_rf_from_gradients g11) as [r11|e]; [| done].
  (* probe at the grid start *)
  unfold bind at 1. rewrite num_feature_maps_eq. simpl self.
  rewrite Hb, Hs. simpl py_len. cbv iota beta.
  unfold bind at 1.
  unfold call_get_gradient_from_grid_points at 1. simpl self. simpl probes.
  rewrite <- !app_assoc. simpl app.
  destruct (_get_gradient_from_grid_points s1
              (replicate (length o) (GridPoint.mk 0 0)) (py_of_Z 1))
    as [gp|e]; [| done].
  simpl rbind. unfold bind at 1. unfold lift at 1.
  destruct (estimate_rf_from_gradients gp) as [rp|e]; [| done].
  (* the final loop and the returned description *)
  unfold bind at 1. unfold get_self at 1.
  unfold bind at 1. unfold put_self at 1. simpl self. simpl probes.
  unfold bind at 1.
  rewrite (compute_loop_eq _ _ []) by done. simpl self. simpl probes.
  rewrite feature_maps_desc_eq. simpl.
  done.
Qed.

(** A successful [compute], read backwards. *)
Lemma compute_Ok_inv a w fms w' :
  compute a w = (Ok fms, w') →
  ∃ gf ishape oshapes rfs_at00 rfs_at11 rfs_at_point00,
    let s1 := built_state (self w) gf ishape oshapes in
    let rfs := map (λ t, rf_params_of t.1 t.2.1 t.2.2)
                 (zip rfs_at_point00 (zip rfs_at00 rfs_at11)) in
    _prepare_gradient_func (self w) a = Ok (gf, ishape, oshapes)
    ∧ estimate_at s1 (map (center_point (GridPoint.mk 0 0)) oshapes)
        = Ok rfs_at00
    ∧ estimate_at s1 (map (center_point (GridPoint.mk 1 1)) oshapes)
        = Ok rfs_at11
    ∧ estimate_at s1 (replicate (length oshapes) (GridPoint.mk 0 0))
        = Ok rfs_at_point00
    ∧ fms = zip_with mk_feature_map oshapes rfs
    ∧ w' = mkWorld (set_rf_params rfs s1)
             (probes w ++ canonical_probes s1).
Proof.
  rewrite compute_eq.
  destruct (_prepare_gradient_func (self w) a) as [[[gf ishape] o]|e];
    [| discriminate].
  unfold compute_outcome.
  destruct (estimate_at _ (map (center_point (GridPoint.mk 0 0)) o))
    as [r00|?] eqn:H00; [| discriminate].
  destruct (estimate_at _ (map (center_point (GridPoint.mk 1 1)) o))
    as [r11|?] eqn:H11; [| discriminate].
  destruct (estimate_at _ (replicate _ _)) as [rp|?] eqn:Hp;
    [| discriminate].
  intros [= <- <-]. by exists gf, ishape, o, r00, r11, rp.
Qed.

(** Conversely, [compute] returns as soon as the gradient function can be
    built and the three probes can be estimated. *)
Lemma compute_returns a w gf ishape oshapes rfs_at00 rfs_at11 rfs_at_point00 :
  let s1 := built_state (self w) gf ishape oshapes in
  _prepare_gradient_func (self w) a = Ok (gf, ishape, oshapes) →
  estimate_at s1 (map (center_point (GridPoint.mk 0 0)) oshapes)
    = Ok rfs_at00 →
  estimate_at s1 (map (center_point (GridPoint.mk 1 1)) oshapes)
    = Ok rfs_at11 →
  estimate_at s1 (replicate (length oshapes) (GridPoint.mk 0 0))
    = Ok rfs_at_point00 →
  ∃ fms w', compute a w = (Ok fms, w').
Proof.
  intros s1 Hp H00 H11 Hp00. rewrite compute_eq, Hp.
  unfold compute_outcome. fold s1. rewrite H00, H11, Hp00. eauto.
Qed.

Lemma estimate_at_length s pts rfs :
  (∀ s pts i g,
     _get_gradient_from_grid_points s pts i = Ok g → length g = length pts) →
  (∀ g r, estimate_rf_from_gradients g = Ok r → length r = length g) →
  estimate_at s pts = Ok rfs → length rfs = length pts.
Proof.
  intros Hg He. unfold estimate_at.
  destruct (_get_gradient_from_grid_points s pts (py_of_Z 1)) as [g|]
    eqn:Hgr; [| discriminate].
  simpl. intros Hr. by rewrite (He _ _ Hr), (Hg _ _ _ _ Hgr).
Qed.

(** C1. When [compute] returns, the receptive field of the [i]-th returned
    feature map is obtained from the [i]-th rectangles of the three probe
    estimates (at the grid centre, at the centre offset by (1, 1), at grid
    point (0, 0)) by the closed formulas
    offset = (rf_at_point00.w - rf_at00.w / 2, rf_at_point00.h - rf_at00.h / 2),
    stride = (rf_at11.x - rf_at00.x, rf_at11.y - rf_at00.y),
    size = (rf_at00.w, rf_at00.h). *)
Theorem compute_closed_form a w fms w' :
  compute a w = (Ok fms, w') →
  ∃ oshapes rfs_at00 rfs_at11 rfs_at_point00,
    let s1 := self (_build_gradient_func a w).2 in
    _output_shapes s1 = Some oshapes
    ∧ estimate_at s1 (map (center_point (GridPoint.mk 0 0)) oshapes)
        = Ok rfs_at00
    ∧ estimate_at s1 (map (center_point (GridPoint.mk 1 1)) oshapes)
        = Ok rfs_at11
    ∧ estimate_at s1 (replicate (length oshapes) (GridPoint.mk 0 0))
        = Ok rfs_at_point00
    ∧ ∀ i fm, fms !! i = Some fm →
        ∃ rf_at00 rf_at11 rf_at_point00,
          rfs_at00 !! i = Some rf_at00
          ∧ rfs_at11 !! i = Some rf_at11
          ∧ rfs_at_point00 !! i = Some rf_at_point00
          ∧ ReceptiveFieldDescription.offset (FeatureMapDescription.rf fm)
              = (py_sub (ReceptiveFieldRect.w rf_at_point00)
                   (py_truediv (ReceptiveFieldRect.w rf_at00) (py_of_Z 2)),
                 py_sub (ReceptiveFieldRect.h rf_at_point00)
                   (py_truediv (ReceptiveFieldRect.h rf_at00) (py_of_Z 2)))
          ∧ ReceptiveFieldDescription.stride (FeatureMapDescription.rf fm)
              = (py_sub (ReceptiveFieldRect.x rf_at11)
                   (ReceptiveFieldRect.x rf_at00),
                 py_sub (ReceptiveFieldRect.y rf_at11)
                   (ReceptiveFieldRect.y rf_at00))
          ∧ ReceptiveFieldDescription.size (FeatureMapDescription.rf fm)
              = Size.mk (ReceptiveFieldRect.w rf_at00)
                  (ReceptiveFieldRect.h rf_at00).
Proof.
  intros Hc.
  destruct (compute_Ok_inv _ _ _ _ Hc)
    as (gf & ishape & o & r00 & r11 & rp & Hp & H00 & H11 & Hp00 & -> & _).
  exists o, r00, r11, rp. rewrite _build_gradient_func_eq, Hp. simpl.
  repeat split; try done.
  intros i fm Hfm.
  apply lookup_zip_with_Some in Hfm as (shape & rf & -> & _ & Hrf).
  rewrite list_lookup_fmap in Hrf.
  destruct (zip rp (zip r00 r11) !! i) as [[p [c0 c1]]|] eqn:Hz;
    [| discriminate].
  injection Hrf as <-.
  apply lookup_zip_with_Some in Hz as (p' & c' & [= <- <-] & Hpi & Hz).
  apply lookup_zip_with_Some in Hz as (c0' & c1' & [= <- <-] & H0i & H1i).
  by exists c0, c1, p.
Qed.

(** C4. Provided the gradient method returns one gradient map per grid
    point and the estimator one rectangle per gradient map, [compute]
    returns one [FeatureMapDescription] per output shape: the list has the
    length of the output shapes, and its [i]-th entry pairs the [i]-th
    shape's width and height with the description estimated for feature map
    [i], which is the one obtained from the [i]-th rectangles of the three
    probe estimates and the one stored at position [i] of [_rf_params]. *)
Theorem compute_one_per_feature_map a w fms w' :
  (∀ s pts i g,
     _get_gradient_from_grid_points s pts i = Ok g → length g = length pts) →
  (∀ g r, estimate_rf_from_gradients g = Ok r → length r = length g) →
  compute a w = (Ok fms, w') →
  ∃ oshapes rfs rfs_at00 rfs_at11 rfs_at_point00,
    let s1 := self (_build_gradient_func a w).2 in
    _output_shapes (self w') = Some oshapes
    ∧ _rf_params (self w') = Some rfs
    ∧ estimate_at s1 (map (center_point (GridPoint.mk 0 0)) oshapes)
        = Ok rfs_at00
    ∧ estimate_at s1 (map (center_point (GridPoint.mk 1 1)) oshapes)
        = Ok rfs_at11
    ∧ estimate_at s1 (replicate (length oshapes) (GridPoint.mk 0 0))
        = Ok rfs_at_point00
    ∧ length fms = length oshapes
    ∧ length rfs = length oshapes
    ∧ ∀ i shape, oshapes !! i = Some shape →
        ∃ rf_at00 rf_at11 rf_at_point00,
          rfs_at00 !! i = Some rf_at00
          ∧ rfs_at11 !! i = Some rf_at11
          ∧ rfs_at_point00 !! i = Some rf_at_point00
          ∧ let rf :=
              ReceptiveFieldDescription.mk
                (py_sub (ReceptiveFieldRect.w rf_at_point00)
                   (py_truediv (ReceptiveFieldRect.w rf_at00) (py_of_Z 2)),
                 py_sub (ReceptiveFieldRect.h rf_at_point00)
                   (py_truediv (ReceptiveFieldRect.h rf_at00) (py_of_Z 2)))
                (py_sub (ReceptiveFieldRect.x rf_at11)
                   (ReceptiveFieldRect.x rf_at00),
                 py_sub (ReceptiveFieldRect.y rf_at11)
                   (ReceptiveFieldRect.y rf_at00))
                (Size.mk (ReceptiveFieldRect.w rf_at00)
                   (ReceptiveFieldRect.h rf_at00)) in
            rfs !! i = Some rf
            ∧ fms !! i
              = Some (FeatureMapDescription.mk
                        (Size.mk (GridShape.w shape) (GridShape.h shape))
                        rf).
Proof.
  intros Hg He Hc.
  destruct (compute_Ok_inv _ _ _ _ Hc)
    as (gf & ishape & o & r00 & r11 & rp & Hp & H00 & H11 & Hp00 & -> & ->).
  pose proof (estimate_at_length _ _ _ Hg He H00) as L00.
  pose proof (estimate_at_length _ _ _ Hg He H11) as L11.
  pose proof (estimate_at_length _ _ _ Hg He Hp00) as Lp.
  rewrite length_fmap in L00, L11. rewrite length_replicate in Lp.
  set (rfs := map (λ t, rf_params_of t.1 t.2.1 t.2.2) (zip rp (zip r00 r11))).
  assert (Hlen : length rfs = length o).
  { unfold rfs. rewrite length_fmap, !length_zip_with. lia. }
  exists o, rfs, r00, r11, rp.
  rewrite _build_gradient_func_eq, Hp. cbv zeta. simpl self.
  split; [done |]. split; [done |]. split; [done |]. split; [done |].
  split; [done |]. split; [rewrite length_zip_with; lia |].
  split; [done |].
  intros i shape Hi.
  assert (Hlt : (i < length o)%nat) by (by eapply lookup_lt_Some).
  destruct (lookup_lt_is_Some_2 r00 i) as [c0 Hc0]; [lia |].
  destruct (lookup_lt_is_Some_2 r11 i) as [c1 Hc1]; [lia |].
  destruct (lookup_lt_is_Some_2 rp i) as [p Hpi]; [lia |].
  exists c0, c1, p. split; [done |]. split; [done |]. split; [done |].
  assert (Hrf : rfs !! i = Some (rf_params_of p c0 c1)).
  { unfold rfs. rewrite list_lookup_fmap.
    assert (Hz : zip rp (zip r00 r11) !! i = Some (p, (c0, c1))).
    { apply lookup_zip_with_Some. exists p, (c0, c1).
      split; [done |]. split; [done |].
      apply lookup_zip_with_Some. by exists c0, c1. }
    by rewrite Hz. }
  split; [exact Hrf |].
  apply lookup_zip_with_Some. by exists shape, (rf_params_of p c0 c1).
Qed.


Lemma center_point_parity off shape :
  center_point off shape
    = GridPoint.mk
        ((if Z.even (GridShape.w shape)
          then GridShape.w shape `div` 2 - 1
          else GridShape.w shape `div` 2) + GridPoint.x off)
        ((if Z.even (GridShape.h shape)
          then GridShape.h shape `div` 2 - 1
          else GridShape.h shape `div` 2) + GridPoint.y off).
Proof.
  unfold center_point. cbv zeta.
  assert (Hpar : ∀ z, (z `mod` 2 =? 0) = Z.even z).
  { intros z. rewrite Zeven_mod. reflexivity. }
  by rewrite !Hpar.
Qed.

(** C3. With the gradient function built, the probe that
    [_get_gradient_activation_at_map_center] sends for feature map [fm] of
    grid shape [w] by [h] is at [cx + off.x, cy + off.y], where [off] is
    the centre offset given for [fm], [cx] is [w // 2 - 1] for even [w] and
    [w // 2] for odd [w], and [cy] likewise from [h]. *)
Theorem map_center_alignment w shapes center_offsets i :
  _built (self w) = true →
  _output_shapes (self w) = Some shapes →
  (length shapes ≤ length center_offsets)%nat →
  ∃ pts,
    _get_gradient_activation_at_map_center center_offsets i w
      = (_get_gradient_from_grid_points (self w) pts i,
         mkWorld (self w) (probes w ++ [mkProbe pts i]))
    ∧ length pts = length shapes
    ∧ ∀ fm shape off,
        shapes !! fm = Some shape →
        center_offsets !! fm = Some off →
        pts !! fm
          = Some (GridPoint.mk
                    ((if Z.even (GridShape.w shape)
                      then GridShape.w shape `div` 2 - 1
                      else GridShape.w shape `div` 2) + GridPoint.x off)
                    ((if Z.even (GridShape.h shape)
                      then GridShape.h shape `div` 2 - 1
                      else GridShape.h shape `div` 2) + GridPoint.y off)).
Proof.
  intros Hb Hs Hlen.
  exists (zip_with (λ shape off, center_point off shape)
            shapes center_offsets).
  split; [| split].
  - by rewrite (center_call_eq w shapes).
  - rewrite length_zip_with. lia.
  - intros fm shape off Hshape Hoff.
    rewrite <- center_point_parity.
    apply lookup_zip_with_Some. by exists shape, off.
Qed.

(** *** The guard, the stored parameters and the plotting method *)

(** What holds of the attributes in every reachable state. *)
Definition consistent (s : ReceptiveField) : Prop :=
  if _built s
  then is_Some (_input_shape s) ∧ is_Some (_output_shapes s)
  else _input_shape s = None ∧ _output_shapes s = None
       ∧ _rf_params s = None.

Lemma compute_outcome_consistent s gf ishape o tr :
  consistent (self (compute_outcome (built_state s gf ishape o) o tr).2).
Proof.
  unfold compute_outcome.
  repeat (destruct (estimate_at _ _); simpl; [| by split]).
  by split.
Qed.

Lemma reachable_consistent w : reachable w → consistent (self w).
Proof.
  induction 1 as [mf | a w Hw IH].
  - by repeat split.
  - rewrite compute_eq.
    destruct (_prepare_gradient_func (self w) a) as [[[gf ishape] o]|e];
      [| done].
    apply compute_outcome_consistent.
Qed.

Lemma plot_rf_grid_eq fm_id custom_image plot_naive_rf plot_params w :
  plot_rf_grid fm_id custom_image plot_naive_rf plot_params w
    = ((output_shape <-? py_subscript (_output_shapes (self w)) fm_id ;;
        rf_params <-? py_subscript (_rf_params (self w)) fm_id ;;
        Ok (mkPlotCall (_input_shape (self w)) output_shape rf_params
              custom_image plot_naive_rf plot_params))%result, w).
Proof.
  unfold plot_rf_grid, bind, get_self, lift.
  destruct (py_subscript (_output_shapes (self w)) fm_id); [| done].
  by destruct (py_subscript (_rf_params (self w)) fm_id).
Qed.

(** C5, as the code has it.  In every reachable state, [input_shape],
    [output_shapes] and [num_feature_maps] raise exactly when the gradient
    function has not been built, and then raise the guard's exception;
    [feature_maps_desc] raises exactly when the gradient function has not
    been built or no receptive-field parameters have been stored yet; after
    a [compute] that returned, none of the four raises. *)
Theorem accessors_guard w :
  reachable w →
  (_built (self w) = false →
     input_shape w = (Raise not_computed, w)
     ∧ output_shapes w = (Raise not_computed, w)
     ∧ num_feature_maps w = (Raise not_computed, w)
     ∧ feature_maps_desc w = (Raise not_computed, w))
  ∧ (raises (input_shape w).1 ↔ _built (self w) = false)
  ∧ (raises (output_shapes w).1 ↔ _built (self w) = false)
  ∧ (raises (num_feature_maps w).1 ↔ _built (self w) = false)
  ∧ (raises (feature_maps_desc w).1
     ↔ _built (self w) = false ∨ _rf_params (self w) = None)
  ∧ (∀ a fms w', compute a w = (Ok fms, w') →
       ¬ raises (input_shape w').1 ∧ ¬ raises (output_shapes w').1
       ∧ ¬ raises (num_feature_maps w').1
       ∧ ¬ raises (feature_maps_desc w').1).
Proof.
  intros Hw. apply reachable_consistent in Hw. unfold consistent in Hw.
  rewrite input_shape_eq, output_shapes_eq, num_feature_maps_eq,
    feature_maps_desc_eq.
  split; [| split; [| split; [| split; [| split]]]].
  - by intros ->.
  - destruct (_built (self w)); simpl; [| done].
    destruct Hw as [[i ->] _]. simpl. intuition done.
  - destruct (_built (self w)); simpl; [| done].
    destruct Hw as [_ [o ->]]. simpl. intuition done.
  - destruct (_built (self w)); simpl; [| done].
    destruct Hw as [_ [o ->]]. simpl. intuition done.
  - destruct (_built (self w)); simpl; [| intuition done].
    destruct Hw as [_ [o ->]]. simpl.
    destruct (_rf_params (self w)); simpl; intuition done.
  - intros a fms w' Hc.
    destruct (compute_Ok_inv _ _ _ _ Hc)
      as (gf & ishape & o & r00 & r11 & rp & _ & _ & _ & _ & _ & ->).
    rewrite input_shape_eq, output_shapes_eq, num_feature_maps_eq,
      feature_maps_desc_eq. simpl. tauto.
Qed.

(** C7, as the code has it.  A [compute] that returns leaves the estimated
    descriptions in [_rf_params]; the list it returns is built from that
    attribute, a later [feature_maps_desc] yields the same list from it,
    and a later [plot_rf_grid] hands [_rf_params[fm_id]] to the plotting
    routine. *)
Theorem compute_stores_rf_params a w fms w' :
  compute a w = (Ok fms, w') →
  ∃ rfs,
    _rf_params (self w') = Some rfs
    ∧ (∀ i fm, fms !! i = Some fm →
         rfs !! i = Some (FeatureMapDescription.rf fm))
    ∧ feature_maps_desc w' = (Ok fms, w')
    ∧ ∀ fm_id custom_image plot_naive_rf plot_params call w'',
        plot_rf_grid fm_id custom_image plot_naive_rf plot_params w'
          = (Ok call, w'') →
        py_index rfs fm_id = Ok (pc_rf_params call) ∧ w'' = w'.
Proof.
  intros Hc.
  destruct (compute_Ok_inv _ _ _ _ Hc)
    as (gf & ishape & o & r00 & r11 & rp & _ & _ & _ & _ & -> & ->).
  set (rfs := map _ (zip rp (zip r00 r11))).
  exists rfs. split; [done |]. split; [| split].
  - intros i fm Hfm.
    by apply lookup_zip_with_Some in Hfm as (shape & rf & -> & _ & Hrf).
  - by rewrite feature_maps_desc_eq.
  - intros fm_id ci pn pp call w''. rewrite plot_rf_grid_eq. simpl.
    destruct (py_index o fm_id); simpl; [| discriminate].
    destruct (py_index rfs fm_id); simpl; [| discriminate].
    by intros [= <- <-].
Qed.

(** C9. [plot_rf_grid] does not go through [_check]: on an instance whose
    gradient function has not been built (no [compute] run, or none that got
    past [_prepare_gradient_func]) the attributes [_output_shapes] and
    [_rf_params] are still [None], and the call fails with the [TypeError]
    of subscripting [None], which is not the guard's exception; the guarded
    accessor [num_feature_maps] raises the guard's exception there. *)
Theorem plot_rf_grid_unguarded w fm_id custom_image plot_naive_rf plot_params :
  reachable w →
  _built (self w) = false →
  _output_shapes (self w) = None
  ∧ _rf_params (self w) = None
  ∧ plot_rf_grid fm_id custom_image plot_naive_rf plot_params w
      = (Raise TypeError, w)
  ∧ TypeError ≠ not_computed
  ∧ num_feature_maps w = (Raise not_computed, w).
Proof.
  intros Hw Hb. apply reachable_consistent in Hw. unfold consistent in Hw.
  rewrite Hb in Hw. destruct Hw as (_ & Ho & Hr).
  rewrite plot_rf_grid_eq, num_feature_maps_eq, Ho, Hr, Hb.
  by repeat split.
Qed.

(** *** Further properties of [compute] and the accessors *)

(** [l[i]] succeeds exactly for [-len <= i < len], and then reads position
    [i mod len]. *)
Lemma py_index_spec {A : Type} (l : list A) (i : Z) :
  let n := Z.of_nat (length l) in
  py_index l i
    = if (- n <=? i) && (i <? n)
      then match l !! Z.to_nat (i `mod` n) with
           | Some a => Ok a
           | None => Raise IndexError
           end
      else Raise IndexError.
Proof.
  cbv zeta. unfold py_index.
  destruct (Z.ltb_spec i 0) as [Hneg|Hpos].
  - destruct (Z.leb_spec (- Z.of_nat (length l)) i) as [Hlo|Hlo].
    + destruct (Z.ltb_spec i (Z.of_nat (length l))) as [_|?]; [| lia].
      destruct (Z.leb_spec 0 (Z.of_nat (length l) + i)) as [_|?]; [| lia].
      destruct (Z.ltb_spec (Z.of_nat (length l) + i) (Z.of_nat (length l)))
        as [_|?]; [| lia].
      simpl.
      replace (i `mod` Z.of_nat (length l)) with (Z.of_nat (length l) + i);
        [done |].
      apply (Z.mod_unique _ _ (-1)); lia.
    + simpl.
      destruct (Z.leb_spec 0 (Z.of_nat (length l) + i)) as [?|_]; [lia |].
      done.
  - destruct (Z.leb_spec 0 i) as [_|?]; [| lia].
    destruct (Z.leb_spec (- Z.of_nat (length l)) i) as [_|?]; [| lia].
    simpl. destruct (Z.ltb_spec i (Z.of_nat (length l))) as [Hlt|Hge];
      [| done].
    by rewrite Z.mod_small by lia.
Qed.

(** X1. An exception that leaves [compute] is one raised by
    [_prepare_gradient_func], by [_get_gradient_from_grid_points] on the
    instance as [compute] leaves it, or by [estimate_rf_from_gradients]:
    the guard, the subscripts and the final loop of [compute] never raise. *)
Theorem compute_raise_origin a w e w' :
  compute a w = (Raise e, w') →
  _prepare_gradient_func (self w) a = Raise e
  ∨ (∃ pts,
       _get_gradient_from_grid_points (self w') pts (py_of_Z 1) = Raise e)
  ∨ (∃ grads, estimate_rf_from_gradients grads = Raise e).
Proof.
  rewrite compute_eq.
  destruct (_prepare_gradient_func (self w) a) as [[[gf ishape] o]|e0].
  2:{ intros [= -> _]. by left. }
  unfold compute_outcome.
  assert (Horigin : ∀ s pts e1,
            estimate_at s pts = Raise e1 →
            (∃ pts, _get_gradient_from_grid_points s pts (py_of_Z 1)
                    = Raise e1)
            ∨ (∃ grads, estimate_rf_from_gradients grads = Raise e1)).
  { intros s pts e1. unfold estimate_at.
    destruct (_get_gradient_from_grid_points s pts (py_of_Z 1)) as [g|e2]
      eqn:Hg; simpl.
    - intros He. right. by exists g.
    - intros [= ->]. left. by exists pts. }
  destruct (estimate_at _ (map (center_point (GridPoint.mk 0 0)) o))
    as [r00|e0] eqn:H00.
  2:{ intros [= -> <-]. right. simpl. by eapply Horigin. }
  destruct (estimate_at _ (map (center_point (GridPoint.mk 1 1)) o))
    as [r11|e0] eqn:H11.
  2:{ intros [= -> <-]. right. simpl. by eapply Horigin. }
  destruct (estimate_at _ (replicate _ _)) as [rp|e0] eqn:Hp.
  - discriminate.
  - intros [= -> <-]. right. simpl. by eapply Horigin.
Qed.

(** X2. A [compute] that raises leaves [_rf_params] as it found it.  When it
    raised after the gradient function was built, on an instance that held
    parameters from an earlier run, a later [feature_maps_desc] does not
    raise: it pairs the newly stored output shapes with the old parameters,
    position by position, up to the shorter of the two lists. *)
Theorem compute_raise_keeps_rf_params a w e w' :
  compute a w = (Raise e, w') →
  _rf_params (self w') = _rf_params (self w)
  ∧ ∀ gf ishape oshapes old,
      _prepare_gradient_func (self w) a = Ok (gf, ishape, oshapes) →
      _rf_params (self w) = Some old →
      ∃ fms,
        feature_maps_desc w' = (Ok fms, w')
        ∧ length fms = (length oshapes `min` length old)%nat
        ∧ ∀ i shape rf,
            oshapes !! i = Some shape → old !! i = Some rf →
            fms !! i
              = Some (FeatureMapDescription.mk
                        (Size.mk (GridShape.w shape) (GridShape.h shape)) rf).
Proof.
  rewrite compute_eq.
  destruct (_prepare_gradient_func (self w) a) as [[[gf ishape] o]|e0].
  2:{ intros [= -> <-]. split; [done |]. discriminate. }
  intros Hc.
  assert (Hw' : self w' = built_state (self w) gf ishape o).
  { revert Hc. unfold compute_outcome.
    repeat (destruct (estimate_at _ _); [| by intros [= _ <-]]).
    discriminate. }
  split; [by rewrite Hw' |].
  intros gf' ishape' oshapes old [= <- <- <-] Hold.
  exists (zip_with mk_feature_map o old).
  rewrite feature_maps_desc_eq, Hw'. simpl. rewrite Hold. simpl.
  split; [done |]. split; [apply length_zip_with |].
  intros i shape rf Hshape Hrf.
  apply lookup_zip_with_Some. by exists shape, rf.
Qed.

(** X3. After a [compute] that returned [n] feature maps (the gradient method
    and the estimator keeping to one result per input), [plot_rf_grid]
    accepts exactly the indices [-n <= fm_id < n]; it then plots feature map
    [fm_id mod n], handing over the stored input shape and that map's output
    shape and receptive field, and leaves the instance as it was.  Any other
    index raises [IndexError]. *)
Theorem plot_rf_grid_index a w fms w' fm_id custom_image plot_naive_rf
    plot_params :
  (∀ s pts i g,
     _get_gradient_from_grid_points s pts i = Ok g → length g = length pts) →
  (∀ g r, estimate_rf_from_gradients g = Ok r → length r = length g) →
  compute a w = (Ok fms, w') →
  let n := Z.of_nat (length fms) in
  (- n ≤ fm_id < n →
     ∃ shape rf,
       fms !! Z.to_nat (fm_id `mod` n)
         = Some (FeatureMapDescription.mk
                   (Size.mk (GridShape.w shape) (GridShape.h shape)) rf)
       ∧ plot_rf_grid fm_id custom_image plot_naive_rf plot_params w'
         = (Ok (mkPlotCall (_input_shape (self w')) shape rf
                  custom_image plot_naive_rf plot_params), w'))
  ∧ (¬ (- n ≤ fm_id < n) →
     plot_rf_grid fm_id custom_image plot_naive_rf plot_params w'
       = (Raise IndexError, w')).
Proof.
  intros Hg He Hc n.
  destruct (compute_Ok_inv _ _ _ _ Hc)
    as (gf & ishape & o & r00 & r11 & rp & Hp & H00 & H11 & Hp00 & Hfms & Hw').
  apply (estimate_at_length _ _ _ Hg He) in H00, H11, Hp00.
  rewrite length_fmap in H00, H11. rewrite length_replicate in Hp00.
  set (rfs := map (λ t, rf_params_of t.1 t.2.1 t.2.2) (zip rp (zip r00 r11)))
    in *.
  assert (Hlen : length rfs = length o).
  { unfold rfs. rewrite length_fmap, !length_zip_with. lia. }
  assert (Hn : n = Z.of_nat (length o)).
  { unfold n. rewrite Hfms, length_zip_with. lia. }
  rewrite plot_rf_grid_eq. subst w'. simpl.
  rewrite !py_index_spec, Hlen, <- Hn.
  split.
  - intros Hin.
    destruct (Z.leb_spec (- n) fm_id) as [_|?]; [| lia].
    destruct (Z.ltb_spec fm_id n) as [_|?]; [| lia]. simpl.
    assert (Hj : (Z.to_nat (fm_id `mod` n) < length o)%nat).
    { pose proof (Z.mod_pos_bound fm_id n). lia. }
    destruct (lookup_lt_is_Some_2 o _ Hj) as [shape Hshape].
    destruct (lookup_lt_is_Some_2 rfs (Z.to_nat (fm_id `mod` n)))
      as [rf Hrf]; [lia |].
    exists shape, rf. rewrite Hshape, Hrf. simpl. split; [| done].
    rewrite Hfms. apply lookup_zip_with_Some. by exists shape, rf.
  - intros Hout.
    destruct (Z.leb_spec (- n) fm_id) as [?|_];
      destruct (Z.ltb_spec fm_id n) as [?|?]; simpl; try done; lia.
Qed.

(** X4. After a [compute] that returned (same proviso), the accessors agree
    with the returned list: [num_feature_maps] is its length,
    [output_shapes] lists the sizes of its entries in order, and
    [input_shape] is the width, height and channel count that
    [_prepare_gradient_func] reported; none of them changes the instance. *)
Theorem accessors_after_compute a w fms w' :
  (∀ s pts i g,
     _get_gradient_from_grid_points s pts i = Ok g → length g = length pts) →
  (∀ g r, estimate_rf_from_gradients g = Ok r → length r = length g) →
  compute a w = (Ok fms, w') →
  num_feature_maps w' = (Ok (length fms), w')
  ∧ output_shapes w' = (Ok (map FeatureMapDescription.size fms), w')
  ∧ ∃ gf ishape oshapes,
      _prepare_gradient_func (self w) a = Ok (gf, ishape, oshapes)
      ∧ input_shape w'
        = (Ok (ImageShape.mk (GridShape.w ishape) (GridShape.h ishape)
                 (GridShape.c ishape)), w').
Proof.
  intros Hg He Hc.
  destruct (compute_Ok_inv _ _ _ _ Hc)
    as (gf & ishape & o & r00 & r11 & rp & Hp & H00 & H11 & Hp00 & Hfms & Hw').
  apply (estimate_at_length _ _ _ Hg He) in H00, H11, Hp00.
  rewrite length_fmap in H00, H11. rewrite length_replicate in Hp00.
  set (rfs := map (λ t, rf_params_of t.1 t.2.1 t.2.2) (zip rp (zip r00 r11)))
    in *.
  assert (Hlen : (length o ≤ length rfs)%nat).
  { unfold rfs. rewrite length_fmap, !length_zip_with. lia. }
  rewrite num_feature_maps_eq, output_shapes_eq, input_shape_eq.
  subst w'. simpl. split; [| split].
  - rewrite Hfms, length_zip_with. do 2 f_equal. lia.
  - do 2 f_equal. rewrite Hfms.
    symmetry. unfold mk_feature_map.
    clearbody rfs. clear -Hlen. revert rfs Hlen.
    induction o as [|shape o IH]; intros [|rf rfs] Hlen; simpl in *;
      try done; try lia.
    f_equal. apply IH. lia.
  - by exists gf, ishape, o.
Qed.

(** X5. The aligned centre that [_get_gradient_activation_at_map_center]
    computes for a grid [w] cells wide is [(w - 1) // 2] for either parity.
    For [w >= 1] it lies inside the grid, and its neighbour one cell further
    lies inside exactly when [w >= 2]; likewise for the height.  The centre
    offset is added on top. *)
Theorem center_inside_grid shapes off :
  ∃ pts,
    center_points_loop (Some shapes) (replicate (length shapes) off)
        (seq 0 (length shapes)) [] = Ok pts
    ∧ length pts = length shapes
    ∧ ∀ fm shape p,
        shapes !! fm = Some shape → pts !! fm = Some p →
        let w := GridShape.w shape in
        let h := GridShape.h shape in
        let cx := GridPoint.x p - GridPoint.x off in
        let cy := GridPoint.y p - GridPoint.y off in
        cx = (w - 1) `div` 2
        ∧ cy = (h - 1) `div` 2
        ∧ (1 ≤ w → 0 ≤ cx < w ∧ (cx + 1 < w ↔ 2 ≤ w))
        ∧ (1 ≤ h → 0 ≤ cy < h ∧ (cy + 1 < h ↔ 2 ≤ h)).
Proof.
  exists (map (center_point off) shapes).
  split; [| split].
  - rewrite center_points_loop_seq by (by rewrite length_replicate).
    by rewrite zip_with_replicate_r_eq.
  - apply length_fmap.
  - intros fm shape p Hshape Hp.
    rewrite list_lookup_fmap, Hshape in Hp. injection Hp as <-.
    unfold center_point. simpl.
    assert (Hc : ∀ z, (if z `mod` 2 =? 0 then z `div` 2 - 1 else z `div` 2)
                      = (z - 1) `div` 2).
    { intros z. destruct (Z.eqb_spec (z `mod` 2) 0) as [Hm|Hm].
      - apply (Z.div_unique _ _ _ 1); [lia |].
        pose proof (Z.div_mod z 2). lia.
      - apply (Z.div_unique _ _ _ 0); [lia |].
        pose proof (Z.div_mod z 2). pose proof (Z.mod_pos_bound z 2). lia. }
    rewrite !Hc.
    pose proof (Z.div_mod (GridShape.w shape - 1) 2).
    pose proof (Z.mod_pos_bound (GridShape.w shape - 1) 2).
    pose proof (Z.div_mod (GridShape.h shape - 1) 2).
    pose proof (Z.mod_pos_bound (GridShape.h shape - 1) 2).
    repeat split; lia.
Qed.

(** *** The other plotting methods *)

(** Matplotlib and the two drawing helpers of [receptivefield.plotting]:
    [plt.figure(figsize=...)], [plt.subplot(rows, cols, index)], the keyword
    arguments [axis=...], [plot_receptive_grid] and [plot_gradient_field].
    All draw outside the embedding and may raise. *)
Context {axis figure_size : Type}.
Variable plt_figure : figure_size → result unit.
Variable plt_subplot : Z → Z → Z → result axis.
Variable axis_kwargs : axis → kwargs.
Variable plot_receptive_grid : PlotCall → result unit.
Variable plot_gradient_field : ndarray → option image → kwargs → result unit.

(** [l[i] = a] for a Python list. *)
Definition py_setitem {A : Type} (l : list A) (i : Z) (a : A)
  : result (list A) :=
  let n := Z.of_nat (length l) in
  let j := if i <? 0 then n + i else i in
  if (0 <=? j) && (j <? n) then Ok (<[Z.to_nat j := a]> l)
  else Raise IndexError.

(** [plot_rf_grid] together with the drawing call it ends in; the value is
    the call made (the method itself returns [None]). *)
Definition plot_rf_grid_draw (fm_id : Z) (custom_image : option image)
    (plot_naive_rf : bool) (plot_params : kwargs) : M PlotCall :=
  call <- plot_rf_grid fm_id custom_image plot_naive_rf plot_params ;;
  lift (plot_receptive_grid call) ;;
  ret call.

(** The loop of [plot_rf_grids]; [drawn] lists the calls made so far. *)
Fixpoint plot_rf_grids_loop (layout : Z * Z) (custom_image : option image)
    (plot_naive_rf : bool) (fms : list nat) (drawn : list PlotCall)
  : M (list PlotCall) :=
  match fms with
  | [] => ret drawn
  | fm :: fms =>
      axis <- lift (plt_subplot layout.1 layout.2 (Z.of_nat fm + 1)) ;;
      call <- plot_rf_grid_draw (Z.of_nat fm) custom_image plot_naive_rf
                (axis_kwargs axis) ;;
      plot_rf_grids_loop layout custom_image plot_naive_rf fms
        (drawn ++ [call])
  end.

(** [plot_rf_grids]; the value is the list of drawing calls made. *)
Definition plot_rf_grids (custom_image : option image) (plot_naive_rf : bool)
    (layout : option (Z * Z)) (figsize : option figure_size)
  : M (list PlotCall) :=
  layout <- match layout with
            | None => n <- num_feature_maps ;; ret (Z.of_nat n, 1)
            | Some layout => ret layout
            end ;;
  match figsize with
  | Some figsize => lift (plt_figure figsize)
  | None => ret tt
  end ;;
  n <- num_feature_maps ;;
  plot_rf_grids_loop layout custom_image plot_naive_rf (seq 0 n) [].

(** [plot_gradient_at]; the value is the gradient map handed to
    [plot_gradient_field]. *)
Definition plot_gradient_at (fm_id : Z) (point : GridPoint.t)
    (image : option image) (plot_params : kwargs) : M ndarray :=
  n <- num_feature_maps ;;
  let points := replicate n (GridPoint.mk 0 0) in
  points <- lift (py_setitem points fm_id
                    (GridPoint.mk (GridPoint.x point) (GridPoint.y point))) ;;
  receptive_field_grads <-
    call_get_gradient_from_grid_points points (py_of_Z 1) ;;
  grad <- lift (py_index receptive_field_grads fm_id) ;;
  lift (plot_gradient_field grad image plot_params) ;;
  ret grad.

(** The loop of [plot_gradients_at]. *)
Fixpoint plot_gradients_at_loop (layout : Z * Z)
    (receptive_field_grads : list ndarray) (image : option image)
    (fms : list nat) : M unit :=
  match fms with
  | [] => ret tt
  | fm :: fms =>
      axis <- lift (plt_subplot layout.1 layout.2 (Z.of_nat fm + 1)) ;;
      grad <- lift (py_index receptive_field_grads (Z.of_nat fm)) ;;
      lift (plot_gradient_field grad image (axis_kwargs axis)) ;;
      plot_gradients_at_loop layout receptive_field_grads image fms
  end.

(** [plot_gradients_at]. *)
Definition plot_gradients_at (points : list GridPoint.t)
    (image : option image) (layout : option (Z * Z))
    (figsize : option figure_size) : M unit :=
  layout <- match layout with
            | None => n <- num_feature_maps ;; ret (Z.of_nat n, 1)
            | Some layout => ret layout
            end ;;
  match figsize with
  | Some figsize => lift (plt_figure figsize)
  | None => ret tt
  end ;;
  receptive_field_grads <-
    call_get_gradient_from_grid_points
      (map (λ point, GridPoint.mk (GridPoint.x point) (GridPoint.y point))
         points)
      (py_of_Z 1) ;;
  n <- num_feature_maps ;;
  plot_gradients_at_loop layout receptive_field_grads image (seq 0 n).

Lemma rebuild_points (points : list GridPoint.t) :
  map (λ point, GridPoint.mk (GridPoint.x point) (GridPoint.y point)) points
    = points.
Proof. induction points as [|[x y] points IH]; simpl; by f_equal. Qed.

Lemma py_setitem_spec {A : Type} (l : list A) (i : Z) (a : A) :
  let n := Z.of_nat (length l) in
  py_setitem l i a
    = if (- n <=? i) && (i <? n)
      then Ok (<[Z.to_nat (i `mod` n) := a]> l)
      else Raise IndexError.
Proof.
  cbv zeta. unfold py_setitem.
  destruct (Z.ltb_spec i 0) as [Hneg|Hpos].
  - destruct (Z.leb_spec (- Z.of_nat (length l)) i) as [Hlo|Hlo].
    + destruct (Z.ltb_spec i (Z.of_nat (length l))) as [_|?]; [| lia].
      destruct (Z.leb_spec 0 (Z.of_nat (length l) + i)) as [_|?]; [| lia].
      destruct (Z.ltb_spec (Z.of_nat (length l) + i) (Z.of_nat (length l)))
        as [_|?]; [| lia].
      simpl.
      replace (i `mod` Z.of_nat (length l)) with (Z.of_nat (length l) + i);
        [done |].
      apply (Z.mod_unique _ _ (-1)); lia.
    + simpl.
      destruct (Z.leb_spec 0 (Z.of_nat (length l) + i)) as [?|_]; [lia |].
      done.
  - destruct (Z.leb_spec 0 i) as [_|?]; [| lia].
    destruct (Z.leb_spec (- Z.of_nat (length l)) i) as [_|?]; [| lia].
    simpl. destruct (Z.ltb_spec i (Z.of_nat (length l))) as [Hlt|Hge];
      [| done].
    by rewrite Z.mod_small by lia.
Qed.

(** X6. [plot_rf_grids], [plot_gradient_at] and, with the default layout,
    [plot_gradients_at] reach the guard before they do anything to the
    instance: when the gradient function has not been built they raise the
    guard's exception and make no gradient call.  (For [plot_rf_grids] with a
    figure size, [plt.figure] runs first and must not raise.) *)
Theorem plot_methods_guarded w :
  _built (self w) = false →
  (∀ custom_image plot_naive_rf layout figsize,
     (∀ f, figsize = Some f → plt_figure f = Ok tt) →
     plot_rf_grids custom_image plot_naive_rf layout figsize w
       = (Raise not_computed, w))
  ∧ (∀ fm_id point img plot_params,
       plot_gradient_at fm_id point img plot_params w
         = (Raise not_computed, w))
  ∧ (∀ points img figsize,
       plot_gradients_at points img None figsize w
         = (Raise not_computed, w)).
Proof.
  intros Hb.
  assert (Hn : num_feature_maps w = (Raise not_computed, w)).
  { by rewrite num_feature_maps_eq, Hb. }
  split; [| split].
  - intros ci pn layout figsize Hfig. unfold plot_rf_grids.
    destruct layout as [layout|].
    + unfold bind at 1. unfold ret at 1.
      destruct figsize as [f|].
      * unfold bind at 1. unfold lift at 1. rewrite (Hfig f eq_refl).
        unfold bind at 1. by rewrite Hn.
      * unfold bind at 1. unfold ret at 1. unfold bind at 1. by rewrite Hn.
    + unfold bind at 1. unfold bind at 1. by rewrite Hn.
  - intros fm_id point img pp. unfold plot_gradient_at.
    unfold bind at 1. by rewrite Hn.
  - intros points img figsize. unfold plot_gradients_at.
    unfold bind at 1. unfold bind at 1. by rewrite Hn.
Qed.

(** X7. With an explicit layout, [plot_gradients_at] calls the gradient
    method before it reaches the guard: on an instance whose gradient
    function has not been built, the call is made on the given points with
    intensity 1, and the method then raises what the gradient method raised
    or, if that returned, the guard's exception. *)
Theorem plot_gradients_at_unguarded w points img layout :
  _built (self w) = false →
  plot_gradients_at points img (Some layout) None w
    = (match _get_gradient_from_grid_points (self w) points (py_of_Z 1) with
       | Ok _ => Raise not_computed
       | Raise e => Raise e
       end,
       mkWorld (self w) (probes w ++ [mkProbe points (py_of_Z 1)])).
Proof.
  intros Hb. unfold plot_gradients_at. rewrite rebuild_points.
  unfold bind at 1. unfold ret at 1.
  unfold bind at 1. unfold ret at 1.
  unfold bind at 1. unfold call_get_gradient_from_grid_points.
  destruct (_get_gradient_from_grid_points (self w) points (py_of_Z 1));
    [| done].
  unfold bind at 1. rewrite num_feature_maps_eq. simpl. by rewrite Hb.
Qed.

(** X8. On a built instance with [n] feature maps, [plot_gradient_at]
    accepts exactly the indices [-n <= fm_id < n].  For any other index it
    raises [IndexError] without calling the gradient method.  For an index
    in range it makes one gradient call, with intensity 1 and with [point]
    at position [fm_id mod n] and (0, 0) for every other feature map, and
    plots the gradient map that call returned for [fm_id]. *)
Theorem plot_gradient_at_probe w shapes fm_id point img plot_params :
  _built (self w) = true →
  _output_shapes (self w) = Some shapes →
  let n := Z.of_nat (length shapes) in
  let pts := <[Z.to_nat (fm_id `mod` n) := point]>
               (replicate (length shapes) (GridPoint.mk 0 0)) in
  (¬ (- n ≤ fm_id < n) →
     plot_gradient_at fm_id point img plot_params w
       = (Raise IndexError, w))
  ∧ (- n ≤ fm_id < n →
     plot_gradient_at fm_id point img plot_params w
       = ((grads <-? _get_gradient_from_grid_points (self w) pts (py_of_Z 1) ;;
           grad <-? py_index grads fm_id ;;
           _ <-? plot_gradient_field grad img plot_params ;;
           Ok grad)%result,
          mkWorld (self w) (probes w ++ [mkProbe pts (py_of_Z 1)]))).
Proof.
  intros Hb Hs n pts.
  assert (Hstart :
    plot_gradient_at fm_id point img plot_params w
      = match (if (- n <=? fm_id) && (fm_id <? n)
               then Ok pts else Raise IndexError) with
        | Ok points =>
            (receptive_field_grads <-
               call_get_gradient_from_grid_points points (py_of_Z 1) ;;
             grad <- lift (py_index receptive_field_grads fm_id) ;;
             lift (plot_gradient_field grad img plot_params) ;;
             ret grad) w
        | Raise e => (Raise e, w)
        end).
  { unfold plot_gradient_at.
    unfold bind at 1. rewrite num_feature_maps_eq, Hb, Hs. simpl py_len.
    cbv iota beta.
    unfold bind at 1. unfold lift at 1.
    rewrite py_setitem_spec, length_replicate. fold n.
    replace (GridPoint.mk (GridPoint.x point) (GridPoint.y point)) with point
      by (by destruct point).
    fold pts. by destruct ((- n <=? fm_id) && (fm_id <? n)). }
  rewrite Hstart. split.
  - intros Hout.
    destruct (Z.leb_spec (- n) fm_id) as [?|_];
      destruct (Z.ltb_spec fm_id n) as [?|?]; simpl; try done; lia.
  - intros Hin.
    destruct (Z.leb_spec (- n) fm_id) as [_|?]; [| lia].
    destruct (Z.ltb_spec fm_id n) as [_|?]; [| lia]. simpl.
    unfold bind at 1. unfold call_get_gradient_from_grid_points.
    destruct (_get_gradient_from_grid_points (self w) pts (py_of_Z 1))
      as [grads|e]; [| done]. simpl.
    unfold bind, lift, ret.
    destruct (py_index grads fm_id) as [grad|e]; [| done]. simpl.
    by destruct (plot_gradient_field grad img plot_params).
Qed.

Lemma plot_rf_grids_loop_ok w shapes rfs layout custom_image plot_naive_rf
    (ax : nat → axis) m : ∀ k drawn,
  _output_shapes (self w) = Some shapes →
  _rf_params (self w) = Some rfs →
  length rfs = length shapes →
  (k + m ≤ length shapes)%nat →
  (∀ fm, (fm < length shapes)%nat →
     plt_subplot layout.1 layout.2 (Z.of_nat fm + 1) = Ok (ax fm)) →
  (∀ call, plot_receptive_grid call = Ok tt) →
  ∃ calls,
    plot_rf_grids_loop layout custom_image plot_naive_rf (seq k m) drawn w
      = (Ok (drawn ++ calls), w)
    ∧ length calls = m
    ∧ ∀ j shape rf,
        shapes !! (k + j)%nat = Some shape → rfs !! (k + j)%nat = Some rf →
        (j < m)%nat →
        calls !! j
          = Some (mkPlotCall (_input_shape (self w)) shape rf
                    custom_image plot_naive_rf (axis_kwargs (ax (k + j)%nat))).
Proof.
  induction m as [|m IH]; intros k drawn Hs Hr Hlen Hk Hax Hplot.
  - exists []. simpl. unfold ret. rewrite app_nil_r.
    split; [done |]. split; [done |]. intros; lia.
  - simpl. unfold bind at 1. unfold lift at 1. rewrite Hax by lia.
    unfold bind at 1. unfold plot_rf_grid_draw.
    unfold bind at 1. rewrite plot_rf_grid_eq, Hs, Hr. simpl.
    rewrite !py_index_nat.
    destruct (lookup_lt_is_Some_2 shapes k) as [shape Hshape]; [lia |].
    destruct (lookup_lt_is_Some_2 rfs k) as [rf Hrf]; [lia |].
    rewrite Hshape, Hrf. simpl.
    unfold bind at 1. unfold lift at 1. rewrite Hplot. unfold ret at 1.
    destruct (IH (S k)
                (drawn ++ [mkPlotCall (_input_shape (self w)) shape rf
                             custom_image plot_naive_rf (axis_kwargs (ax k))])
                Hs Hr Hlen)
      as (calls & -> & Hcalls & Hlook); [lia | done | done |].
    eexists (_ :: calls). rewrite <- app_assoc. simpl.
    split; [done |]. split; [by rewrite Hcalls |].
    intros [|j] shape' rf' Hshape' Hrf' Hj.
    + rewrite Nat.add_0_r in Hshape', Hrf' |- *. simpl. congruence.
    + simpl. rewrite <- Nat.add_succ_comm in Hshape', Hrf' |- *.
      apply Hlook; [done | done | lia].
Qed.

(** X9. On an instance that holds one receptive-field description per output
    shape, [plot_rf_grids] with the default layout draws every feature map
    once, in order: feature map [fm] goes to subplot [fm + 1] of an [n] by 1
    layout, with its own output shape and receptive field; the instance is
    left as it was.  (Matplotlib and the drawing helper are taken not to
    raise.) *)
Theorem plot_rf_grids_draws_each w shapes rfs custom_image plot_naive_rf
    figsize (ax : nat → axis) :
  _built (self w) = true →
  _output_shapes (self w) = Some shapes →
  _rf_params (self w) = Some rfs →
  length rfs = length shapes →
  (∀ f, figsize = Some f → plt_figure f = Ok tt) →
  (∀ fm, (fm < length shapes)%nat →
     plt_subplot (Z.of_nat (length shapes)) 1 (Z.of_nat fm + 1)
       = Ok (ax fm)) →
  (∀ call, plot_receptive_grid call = Ok tt) →
  ∃ calls,
    plot_rf_grids custom_image plot_naive_rf None figsize w = (Ok calls, w)
    ∧ length calls = length shapes
    ∧ ∀ fm shape rf,
        shapes !! fm = Some shape → rfs !! fm = Some rf →
        calls !! fm
          = Some (mkPlotCall (_input_shape (self w)) shape rf
                    custom_image plot_naive_rf (axis_kwargs (ax fm))).
Proof.
  intros Hb Hs Hr Hlen Hfig Hax Hplot.
  destruct (plot_rf_grids_loop_ok w shapes rfs (Z.of_nat (length shapes), 1)
              custom_image plot_naive_rf ax (length shapes) 0%nat [])
    as (calls & Hloop & Hcalls & Hlook); try done.
  exists calls. split; [| split; [done |]].
  - unfold plot_rf_grids.
    assert (Hn : num_feature_maps w = (Ok (length shapes), w)).
    { by rewrite num_feature_maps_eq, Hb, Hs. }
    unfold bind at 1. unfold bind at 1. rewrite Hn. unfold ret at 1.
    unfold bind at 1.
    destruct figsize as [f|].
    + unfold lift at 1. rewrite (Hfig f eq_refl).
      unfold bind at 1. by rewrite Hn.
    + unfold ret at 1. unfold bind at 1. by rewrite Hn.
  - intros fm shape rf Hshape Hrf. apply (Hlook fm shape rf); try done.
    by eapply lookup_lt_Some.
Qed.
End ReceptiveField.

(** *** A concrete instance

    A network with two feature maps, of grid shapes 4 by 5 and 3 by 2, whose
    gradient map for a grid point is represented by that point, and whose
    receptive field at grid point (x, y) is the 7 by 7 rectangle centred at
    (2 x + 3, 2 y + 3).  Numbers are exact rationals. *)

Definition demo_shapes : list GridShape.t :=
  [GridShape.mk 1 4 5 8; GridShape.mk 1 3 2 8].

Definition demo_prepare
    (s : ReceptiveField (num := Q) (model := unit) (gradfn := unit))
    (a : unit) : result (unit * GridShape.t * list GridShape.t) :=
  Ok (tt, GridShape.mk 1 32 32 3, demo_shapes).

Definition demo_gradient
    (s : ReceptiveField (num := Q) (model := unit) (gradfn := unit))
    (points : list GridPoint.t) (intensity : Q)
  : result (list GridPoint.t) :=
  Ok points.

Definition demo_estimate (grads : list GridPoint.t)
  : result (list (ReceptiveFieldRect.t Q)) :=
  Ok (map (λ p, ReceptiveFieldRect.mk
                  (inject_Z (2 * GridPoint.x p + 3))
                  (inject_Z (2 * GridPoint.y p + 3))
                  (inject_Z 7) (inject_Z 7))
        grads).

(** The same network with an input too small for its receptive field: the
    gradient method raises, as the docstring of [compute] announces. *)
Definition failing_gradient
    (s : ReceptiveField (num := Q) (model := unit) (gradfn := unit))
    (points : list GridPoint.t) (intensity : Q)
  : result (list GridPoint.t) :=
  Raise (Foreign "receptive field bigger than input_shape").

Definition demo_compute : M (list (FeatureMapDescription.t Q)) :=
  compute demo_prepare demo_gradient demo_estimate tt.

Definition failing_compute : M (list (FeatureMapDescription.t Q)) :=
  compute demo_prepare failing_gradient demo_estimate tt.

(** What [compute] yields on the concrete network. *)
Definition demo_rf : ReceptiveFieldDescription.t Q :=
  ReceptiveFieldDescription.mk
    ((7 # 2)%Q, (7 # 2)%Q) ((2 # 1)%Q, (2 # 1)%Q)
    (Size.mk (7 # 1)%Q (7 # 1)%Q).

Definition demo_fms : list (FeatureMapDescription.t Q) :=
  [FeatureMapDescription.mk (Size.mk 4 5) demo_rf;
   FeatureMapDescription.mk (Size.mk 3 2) demo_rf].

Definition demo_built
  : ReceptiveField (num := Q) (model := unit) (gradfn := unit) :=
  built_state (init tt) tt (GridShape.mk 1 32 32 3) demo_shapes.

Definition demo_probes : list (Probe (num := Q)) :=
  [ mkProbe [GridPoint.mk 1 2; GridPoint.mk 1 0] (1 # 1)%Q;
    mkProbe [GridPoint.mk 2 3; GridPoint.mk 2 1] (1 # 1)%Q;
    mkProbe [GridPoint.mk 0 0; GridPoint.mk 0 0] (1 # 1)%Q ].

Definition demo_final
  : World (num := Q) (model := unit) (gradfn := unit) :=
  mkWorld (set_rf_params [demo_rf; demo_rf] demo_built) demo_probes.

(** The state a failed [compute] leaves: built, probed once, nothing stored. *)
Definition failed_final
  : World (num := Q) (model := unit) (gradfn := unit) :=
  mkWorld demo_built (take 1 demo_probes).

Example demo_compute_run : demo_compute (new tt) = (Ok demo_fms, demo_final).
Proof. vm_compute. reflexivity. Qed.

Example failing_compute_run :
  failing_compute (new tt)
    = (Raise (Foreign "receptive field bigger than input_shape"),
       failed_final).
Proof. vm_compute. reflexivity. Qed.

Lemma demo_gradient_length s pts i g :
  demo_gradient s pts i = Ok g → length g = length pts.
Proof. unfold demo_gradient. by intros [= ->]. Defined.

Lemma demo_estimate_length g r :
  demo_estimate g = Ok r → length r = length g.
Proof. unfold demo_estimate. intros [= <-]. apply length_fmap. Defined.

Lemma compute_closed_form_witness :
  demo_compute (new tt) = (Ok demo_fms, demo_final)
  ∧ ∃ oshapes rfs_at00 rfs_at11 rfs_at_point00,
      let s1 := self (_build_gradient_func demo_prepare tt (new tt)).2 in
      _output_shapes s1 = Some oshapes
      ∧ estimate_at demo_gradient demo_estimate s1
          (map (center_point (GridPoint.mk 0 0)) oshapes) = Ok rfs_at00
      ∧ estimate_at demo_gradient demo_estimate s1
          (map (center_point (GridPoint.mk 1 1)) oshapes) = Ok rfs_at11
      ∧ estimate_at demo_gradient demo_estimate s1
          (replicate (length oshapes) (GridPoint.mk 0 0)) = Ok rfs_at_point00
      ∧ ∀ i fm, demo_fms !! i = Some fm →
          ∃ rf_at00 rf_at11 rf_at_point00,
            rfs_at00 !! i = Some rf_at00
            ∧ rfs_at11 !! i = Some rf_at11
            ∧ rfs_at_point00 !! i = Some rf_at_point00
            ∧ ReceptiveFieldDescription.offset (FeatureMapDescription.rf fm)
                = (py_sub (ReceptiveFieldRect.w rf_at_point00)
                     (py_truediv (ReceptiveFieldRect.w rf_at00) (py_of_Z 2)),
                   py_sub (ReceptiveFieldRect.h rf_at_point00)
                     (py_truediv (ReceptiveFieldRect.h rf_at00) (py_of_Z 2)))
            ∧ ReceptiveFieldDescription.stride (FeatureMapDescription.rf fm)
                = (py_sub (ReceptiveFieldRect.x rf_at11)
                     (ReceptiveFieldRect.x rf_at00),
                   py_sub (ReceptiveFieldRect.y rf_at11)
                     (ReceptiveFieldRect.y rf_at00))
            ∧ ReceptiveFieldDescription.size (FeatureMapDescription.rf fm)
                = Size.mk (ReceptiveFieldRect.w rf_at00)
                    (ReceptiveFieldRect.h rf_at00).
Proof.
  split; [vm_compute; reflexivity |].
  apply (compute_closed_form demo_prepare demo_gradient demo_estimate
           tt (new tt) demo_fms demo_final).
  vm_compute. reflexivity.
Defined.

(** A second estimator, whose receptive field differs from one feature map to
    the next: for the feature map at position [i] the stride is [2 + i] and
    the rectangle is [7 + 4 i] wide and high. *)
Definition estimate_by_map (grads : list GridPoint.t)
  : result (list (ReceptiveFieldRect.t Q)) :=
  Ok (imap (λ i p,
              let s := 2 + Z.of_nat i in
              let d := 7 + 4 * Z.of_nat i in
              ReceptiveFieldRect.mk
                (inject_Z (s * GridPoint.x p + 3))
                (inject_Z (s * GridPoint.y p + 3))
                (inject_Z d) (inject_Z d))
        grads).

Lemma estimate_by_map_length g r :
  estimate_by_map g = Ok r → length r = length g.
Proof. unfold estimate_by_map. intros [= <-]. apply length_imap. Defined.

Definition by_map_rf0 : ReceptiveFieldDescription.t Q :=
  ReceptiveFieldDescription.mk
    ((7 # 2)%Q, (7 # 2)%Q) ((2 # 1)%Q, (2 # 1)%Q)
    (Size.mk (7 # 1)%Q (7 # 1)%Q).

Definition by_map_rf1 : ReceptiveFieldDescription.t Q :=
  ReceptiveFieldDescription.mk
    ((11 # 2)%Q, (11 # 2)%Q) ((3 # 1)%Q, (3 # 1)%Q)
    (Size.mk (11 # 1)%Q (11 # 1)%Q).

Definition by_map_fms : list (FeatureMapDescription.t Q) :=
  [FeatureMapDescription.mk (Size.mk 4 5) by_map_rf0;
   FeatureMapDescription.mk (Size.mk 3 2) by_map_rf1].

Definition by_map_final
  : World (num := Q) (model := unit) (gradfn := unit) :=
  mkWorld (set_rf_params [by_map_rf0; by_map_rf1] demo_built) demo_probes.

Example by_map_compute_run :
  compute demo_prepare demo_gradient estimate_by_map tt (new tt)
    = (Ok by_map_fms, by_map_final).
Proof. vm_compute. reflexivity. Qed.

Lemma compute_one_per_feature_map_witness :
  (∀ s pts i g, demo_gradient s pts i = Ok g → length g = length pts)
  ∧ (∀ g r, estimate_by_map g = Ok r → length r = length g)
  ∧ compute demo_prepare demo_gradient estimate_by_map tt (new tt)
    = (Ok by_map_fms, by_map_final)
  ∧ ∃ oshapes rfs rfs_at00 rfs_at11 rfs_at_point00,
      let s1 := self (_build_gradient_func demo_prepare tt (new tt)).2 in
      _output_shapes (self by_map_final) = Some oshapes
      ∧ _rf_params (self by_map_final) = Some rfs
      ∧ estimate_at demo_gradient estimate_by_map s1
          (map (center_point (GridPoint.mk 0 0)) oshapes) = Ok rfs_at00
      ∧ estimate_at demo_gradient estimate_by_map s1
          (map (center_point (GridPoint.mk 1 1)) oshapes) = Ok rfs_at11
      ∧ estimate_at demo_gradient estimate_by_map s1
          (replicate (length oshapes) (GridPoint.mk 0 0)) = Ok rfs_at_point00
      ∧ length by_map_fms = length oshapes
      ∧ length rfs = length oshapes
      ∧ ∀ i shape, oshapes !! i = Some shape →
          ∃ rf_at00 rf_at11 rf_at_point00,
            rfs_at00 !! i = Some rf_at00
            ∧ rfs_at11 !! i = Some rf_at11
            ∧ rfs_at_point00 !! i = Some rf_at_point00
            ∧ let rf :=
                ReceptiveFieldDescription.mk
                  (py_sub (ReceptiveFieldRect.w rf_at_point00)
                     (py_truediv (ReceptiveFieldRect.w rf_at00) (py_of_Z 2)),
                   py_sub (ReceptiveFieldRect.h rf_at_point00)
                     (py_truediv (ReceptiveFieldRect.h rf_at00) (py_of_Z 2)))
                  (py_sub (ReceptiveFieldRect.x rf_at11)
                     (ReceptiveFieldRect.x rf_at00),
                   py_sub (ReceptiveFieldRect.y rf_at11)
                     (ReceptiveFieldRect.y rf_at00))
                  (Size.mk (ReceptiveFieldRect.w rf_at00)
                     (ReceptiveFieldRect.h rf_at00)) in
              rfs !! i = Some rf
              ∧ by_map_fms !! i
                = Some (FeatureMapDescription.mk
                          (Size.mk (GridShape.w shape) (GridShape.h shape))
                          rf).
Proof.
  split; [exact demo_gradient_length |].
  split; [exact estimate_by_map_length |].
  split; [vm_compute; reflexivity |].
  apply (compute_one_per_feature_map demo_prepare demo_gradient
           estimate_by_map tt (new tt) by_map_fms by_map_final
           demo_gradient_length estimate_by_map_length).
  vm_compute. reflexivity.
Defined.


Lemma map_center_alignment_witness :
  let center_offsets := [GridPoint.mk 1 1; GridPoint.mk 0 (-1)] in
  _built (self demo_final) = true
  ∧ _output_shapes (self demo_final) = Some demo_shapes
  ∧ (length demo_shapes ≤ length center_offsets)%nat
  ∧ ∃ pts,
      _get_gradient_activation_at_map_center demo_gradient
          center_offsets 1%Q demo_final
        = (demo_gradient (self demo_final) pts 1%Q,
           mkWorld (self demo_final)
             (probes demo_final ++ [mkProbe pts 1%Q]))
      ∧ length pts = length demo_shapes
      ∧ ∀ fm shape off,
          demo_shapes !! fm = Some shape →
          center_offsets !! fm = Some off →
          pts !! fm
            = Some (GridPoint.mk
                      ((if Z.even (GridShape.w shape)
                        then GridShape.w shape `div` 2 - 1
                        else GridShape.w shape `div` 2) + GridPoint.x off)
                      ((if Z.even (GridShape.h shape)
                        then GridShape.h shape `div` 2 - 1
                        else GridShape.h shape `div` 2) + GridPoint.y off)).
Proof.
  cbv zeta.
  split; [reflexivity |]. split; [reflexivity |]. split; [simpl; lia |].
  apply (map_center_alignment demo_gradient demo_final demo_shapes
           [GridPoint.mk 1 1; GridPoint.mk 0 (-1)] 1%Q).
  - reflexivity.
  - reflexivity.
  - simpl. lia.
Defined.

(** The claim as the specification words it fails for [feature_maps_desc]:
    after a [compute] that built the gradient function and then raised, the
    accessor raises although the gradient function has been built. *)
Lemma accessors_guard_counterexample :
  reachable demo_prepare failing_gradient demo_estimate failed_final
  ∧ _built (self failed_final) = true
  ∧ feature_maps_desc failed_final = (Raise TypeError, failed_final)
  ∧ ¬ (raises (feature_maps_desc failed_final).1
       ↔ _built (self failed_final) = false).
Proof.
  split; [| split; [| split]].
  - change failed_final with (failing_compute (new tt)).2.
    apply reachable_compute, reachable_new.
  - reflexivity.
  - reflexivity.
  - intros [H _]. by specialize (H I).
Qed.

Lemma accessors_guard_witness :
  let w := failed_final in
  reachable demo_prepare failing_gradient demo_estimate w
  ∧ (_built (self w) = false →
       input_shape w = (Raise not_computed, w)
       ∧ output_shapes w = (Raise not_computed, w)
       ∧ num_feature_maps w = (Raise not_computed, w)
       ∧ feature_maps_desc w = (Raise not_computed, w))
  ∧ (raises (input_shape w).1 ↔ _built (self w) = false)
  ∧ (raises (output_shapes w).1 ↔ _built (self w) = false)
  ∧ (raises (num_feature_maps w).1 ↔ _built (self w) = false)
  ∧ (raises (feature_maps_desc w).1
     ↔ _built (self w) = false ∨ _rf_params (self w) = None)
  ∧ (∀ a fms w',
       compute demo_prepare failing_gradient demo_estimate a w
         = (Ok fms, w') →
       ¬ raises (input_shape w').1 ∧ ¬ raises (output_shapes w').1
       ∧ ¬ raises (num_feature_maps w').1
       ∧ ¬ raises (feature_maps_desc w').1).
Proof.
  cbv zeta.
  assert (Hr : reachable demo_prepare failing_gradient demo_estimate
                 failed_final).
  { change failed_final with (failing_compute (new tt)).2.
    apply reachable_compute, reachable_new. }
  split; [exact Hr |].
  exact (accessors_guard demo_prepare failing_gradient demo_estimate
           failed_final Hr).
Defined.

(** The claim as the specification words it fails: [compute] leaves the
    estimated descriptions on the instance, and what a later [plot_rf_grid]
    does depends on them. *)
Lemma compute_stores_rf_params_counterexample :
  demo_compute (new tt) = (Ok demo_fms, demo_final)
  ∧ _rf_params (self (new (num := Q) (gradfn := unit) tt)) = None
  ∧ _rf_params (self demo_final) = Some [demo_rf; demo_rf]
  ∧ (plot_rf_grid (image := unit) 0 None false tt demo_final).1
      = Ok (mkPlotCall (Some (GridShape.mk 1 32 32 3))
              (GridShape.mk 1 4 5 8) demo_rf None false tt)
  ∧ (plot_rf_grid (image := unit) 0 None false tt
       (mkWorld demo_built (probes demo_final))).1
      = Raise TypeError.
Proof. repeat split; vm_compute; reflexivity. Qed.

Lemma compute_stores_rf_params_witness :
  demo_compute (new tt) = (Ok demo_fms, demo_final)
  ∧ ∃ rfs,
      _rf_params (self demo_final) = Some rfs
      ∧ (∀ i fm, demo_fms !! i = Some fm →
           rfs !! i = Some (FeatureMapDescription.rf fm))
      ∧ feature_maps_desc demo_final = (Ok demo_fms, demo_final)
      ∧ ∀ fm_id (custom_image : option unit) plot_naive_rf
          (plot_params : unit) call w'',
          plot_rf_grid fm_id custom_image plot_naive_rf plot_params demo_final
            = (Ok call, w'') →
          py_index rfs fm_id = Ok (pc_rf_params call) ∧ w'' = demo_final.
Proof.
  split; [vm_compute; reflexivity |].
  apply (compute_stores_rf_params demo_prepare demo_gradient demo_estimate
           tt (new tt) demo_fms demo_final).
  vm_compute. reflexivity.
Defined.

Lemma plot_rf_grid_unguarded_witness :
  let w : World (num := Q) (model := unit) (gradfn := unit) := new tt in
  reachable demo_prepare demo_gradient demo_estimate w
  ∧ _built (self w) = false
  ∧ _output_shapes (self w) = None
  ∧ _rf_params (self w) = None
  ∧ plot_rf_grid (image := unit) 1 None false tt w = (Raise TypeError, w)
  ∧ TypeError ≠ not_computed
  ∧ num_feature_maps w = (Raise not_computed, w).
Proof.
  cbv zeta.
  split; [apply reachable_new |]. split; [reflexivity |].
  apply (plot_rf_grid_unguarded demo_prepare demo_gradient demo_estimate
           (new tt) 1 None false tt (reachable_new _ _ _ tt)).
  reflexivity.
Defined.

(** *** The further properties on the concrete instance *)

Definition demo_failure : exn :=
  Foreign "receptive field bigger than input_shape".

(** A second [compute], failing, on the instance the first one left. *)
Definition stale_final
  : World (num := Q) (model := unit) (gradfn := unit) :=
  (compute demo_prepare failing_gradient demo_estimate tt demo_final).2.

(** Matplotlib stand-ins: an axis is the triple given to [plt.subplot]. *)
Definition demo_figure (figsize : Z * Z) : result unit := Ok tt.
Definition demo_subplot (rows cols index : Z) : result (Z * Z * Z) :=
  Ok (rows, cols, index).
Definition demo_plot_receptive_grid
    (call : PlotCall (num := Q) (image := unit) (kwargs := Z * Z * Z))
  : result unit := Ok tt.
Definition demo_plot_gradient_field (grad : GridPoint.t)
    (img : option unit) (plot_params : Z * Z * Z) : result unit := Ok tt.

Lemma compute_raise_origin_witness :
  failing_compute (new tt) = (Raise demo_failure, failed_final)
  ∧ (demo_prepare (self (new tt)) tt = Raise demo_failure
     ∨ (∃ pts,
          failing_gradient (self failed_final) pts (py_of_Z 1)
            = Raise demo_failure)
     ∨ (∃ grads, demo_estimate grads = Raise demo_failure)).
Proof.
  split; [vm_compute; reflexivity |].
  apply (compute_raise_origin demo_prepare failing_gradient demo_estimate
           tt (new tt) demo_failure failed_final).
  vm_compute. reflexivity.
Defined.

Lemma compute_raise_keeps_rf_params_witness :
  compute demo_prepare failing_gradient demo_estimate tt demo_final
    = (Raise demo_failure, stale_final)
  ∧ _rf_params (self stale_final) = _rf_params (self demo_final)
  ∧ ∀ gf ishape oshapes old,
      demo_prepare (self demo_final) tt = Ok (gf, ishape, oshapes) →
      _rf_params (self demo_final) = Some old →
      ∃ fms,
        feature_maps_desc stale_final = (Ok fms, stale_final)
        ∧ length fms = (length oshapes `min` length old)%nat
        ∧ ∀ i shape rf,
            oshapes !! i = Some shape → old !! i = Some rf →
            fms !! i
              = Some (FeatureMapDescription.mk
                        (Size.mk (GridShape.w shape) (GridShape.h shape)) rf).
Proof.
  split; [vm_compute; reflexivity |].
  apply (compute_raise_keeps_rf_params demo_prepare failing_gradient
           demo_estimate tt demo_final demo_failure stale_final).
  vm_compute. reflexivity.
Defined.

Lemma plot_rf_grid_index_witness :
  let fm_id := -1 in
  let n := Z.of_nat (length demo_fms) in
  (∀ s pts i g, demo_gradient s pts i = Ok g → length g = length pts)
  ∧ (∀ g r, demo_estimate g = Ok r → length r = length g)
  ∧ demo_compute (new tt) = (Ok demo_fms, demo_final)
  ∧ (- n ≤ fm_id < n →
       ∃ shape rf,
         demo_fms !! Z.to_nat (fm_id `mod` n)
           = Some (FeatureMapDescription.mk
                     (Size.mk (GridShape.w shape) (GridShape.h shape)) rf)
         ∧ plot_rf_grid (image := unit) fm_id None false tt demo_final
           = (Ok (mkPlotCall (_input_shape (self demo_final)) shape rf
                    None false tt), demo_final))
  ∧ (¬ (- n ≤ fm_id < n) →
       plot_rf_grid (image := unit) fm_id None false tt demo_final
         = (Raise IndexError, demo_final)).
Proof.
  cbv zeta.
  split; [exact demo_gradient_length |].
  split; [exact demo_estimate_length |].
  split; [vm_compute; reflexivity |].
  apply (plot_rf_grid_index demo_prepare demo_gradient demo_estimate
           tt (new tt) demo_fms demo_final (-1) None false tt
           demo_gradient_length demo_estimate_length).
  vm_compute. reflexivity.
Defined.

Lemma accessors_after_compute_witness :
  (∀ s pts i g, demo_gradient s pts i = Ok g → length g = length pts)
  ∧ (∀ g r, demo_estimate g = Ok r → length r = length g)
  ∧ demo_compute (new tt) = (Ok demo_fms, demo_final)
  ∧ num_feature_maps demo_final = (Ok (length demo_fms), demo_final)
  ∧ output_shapes demo_final
    = (Ok (map FeatureMapDescription.size demo_fms), demo_final)
  ∧ ∃ gf ishape oshapes,
      demo_prepare (self (new tt)) tt = Ok (gf, ishape, oshapes)
      ∧ input_shape demo_final
        = (Ok (ImageShape.mk (GridShape.w ishape) (GridShape.h ishape)
                 (GridShape.c ishape)), demo_final).
Proof.
  split; [exact demo_gradient_length |].
  split; [exact demo_estimate_length |].
  split; [vm_compute; reflexivity |].
  apply (accessors_after_compute demo_prepare demo_gradient demo_estimate
           tt (new tt) demo_fms demo_final
           demo_gradient_length demo_estimate_length).
  vm_compute. reflexivity.
Defined.

Lemma plot_methods_guarded_witness :
  let w : World (num := Q) (model := unit) (gradfn := unit) := new tt in
  _built (self w) = false
  ∧ (∀ (custom_image : option unit) plot_naive_rf layout figsize,
       (∀ f, figsize = Some f → demo_figure f = Ok tt) →
       plot_rf_grids demo_figure demo_subplot id demo_plot_receptive_grid
           custom_image plot_naive_rf layout figsize w
         = (Raise not_computed, w))
  ∧ (∀ fm_id point (img : option unit) plot_params,
       plot_gradient_at demo_gradient demo_plot_gradient_field
           fm_id point img plot_params w
         = (Raise not_computed, w))
  ∧ (∀ points (img : option unit) figsize,
       plot_gradients_at demo_gradient demo_figure demo_subplot id
           demo_plot_gradient_field points img None figsize w
         = (Raise not_computed, w)).
Proof.
  cbv zeta. split; [reflexivity |].
  apply (plot_methods_guarded demo_gradient demo_figure demo_subplot id
           demo_plot_receptive_grid demo_plot_gradient_field (new tt)).
  reflexivity.
Defined.

Lemma plot_gradients_at_unguarded_witness :
  let w : World (num := Q) (model := unit) (gradfn := unit) := new tt in
  let points := [GridPoint.mk 3 4] in
  _built (self w) = false
  ∧ plot_gradients_at demo_gradient demo_figure demo_subplot id
        demo_plot_gradient_field points (None : option unit) (Some (1, 1))
        None w
    = (match demo_gradient (self w) points (py_of_Z 1) with
       | Ok _ => Raise not_computed
       | Raise e => Raise e
       end,
       mkWorld (self w) (probes w ++ [mkProbe points (py_of_Z 1)])).
Proof.
  cbv zeta. split; [reflexivity |].
  apply (plot_gradients_at_unguarded demo_gradient demo_figure demo_subplot
           id demo_plot_gradient_field (new tt) [GridPoint.mk 3 4] None
           (1, 1)).
  reflexivity.
Defined.

Lemma plot_gradient_at_probe_witness :
  let w := demo_final in
  let fm_id := -1 in
  let point := GridPoint.mk 2 0 in
  let n := Z.of_nat (length demo_shapes) in
  let pts := <[Z.to_nat (fm_id `mod` n) := point]>
               (replicate (length demo_shapes) (GridPoint.mk 0 0)) in
  _built (self w) = true
  ∧ _output_shapes (self w) = Some demo_shapes
  ∧ (¬ (- n ≤ fm_id < n) →
       plot_gradient_at demo_gradient demo_plot_gradient_field
           fm_id point (None : option unit) (2, 1, 2) w
         = (Raise IndexError, w))
  ∧ (- n ≤ fm_id < n →
       plot_gradient_at demo_gradient demo_plot_gradient_field
           fm_id point (None : option unit) (2, 1, 2) w
         = ((grads <-? demo_gradient (self w) pts (py_of_Z 1) ;;
             grad <-? py_index grads fm_id ;;
             _ <-? demo_plot_gradient_field grad None (2, 1, 2) ;;
             Ok grad)%result,
            mkWorld (self w) (probes w ++ [mkProbe pts (py_of_Z 1)]))).
Proof.
  cbv zeta. split; [reflexivity |]. split; [reflexivity |].
  apply (plot_gradient_at_probe demo_gradient demo_plot_gradient_field
           demo_final demo_shapes (-1) (GridPoint.mk 2 0) None (2, 1, 2));
    reflexivity.
Defined.

Example plot_gradient_at_last :
  plot_gradient_at demo_gradient demo_plot_gradient_field
      (-1) (GridPoint.mk 2 0) (None : option unit) (2, 1, 2) demo_final
    = (Ok (GridPoint.mk 2 0),
       mkWorld (self demo_final)
         (probes demo_final
            ++ [mkProbe [GridPoint.mk 0 0; GridPoint.mk 2 0] (1 # 1)%Q])).
Proof. vm_compute. reflexivity. Qed.

Lemma plot_rf_grids_draws_each_witness :
  let w := demo_final in
  let rfs := [demo_rf; demo_rf] in
  let ax := λ fm : nat, (2, 1, Z.of_nat fm + 1) in
  let figsize := Some (6, 8) in
  _built (self w) = true
  ∧ _output_shapes (self w) = Some demo_shapes
  ∧ _rf_params (self w) = Some rfs
  ∧ length rfs = length demo_shapes
  ∧ (∀ f, figsize = Some f → demo_figure f = Ok tt)
  ∧ (∀ fm, (fm < length demo_shapes)%nat →
       demo_subplot (Z.of_nat (length demo_shapes)) 1 (Z.of_nat fm + 1)
         = Ok (ax fm))
  ∧ (∀ call, demo_plot_receptive_grid call = Ok tt)
  ∧ ∃ calls,
      plot_rf_grids demo_figure demo_subplot id demo_plot_receptive_grid
          (None : option unit) false None figsize w
        = (Ok calls, w)
      ∧ length calls = length demo_shapes
      ∧ ∀ fm shape rf,
          demo_shapes !! fm = Some shape → rfs !! fm = Some rf →
          calls !! fm
            = Some (mkPlotCall (_input_shape (self w)) shape rf
                      None false (id (ax fm))).
Proof.
  cbv zeta.
  split; [reflexivity |]. split; [reflexivity |]. split; [reflexivity |].
  split; [reflexivity |]. split; [reflexivity |]. split; [reflexivity |].
  split; [reflexivity |].
  apply (plot_rf_grids_draws_each demo_figure demo_subplot id
           demo_plot_receptive_grid demo_final demo_shapes
           [demo_rf; demo_rf] None false (Some (6, 8))
           (λ fm : nat, (2, 1, Z.of_nat fm + 1)));
    reflexivity.
Defined.
End RF.

(** ** [app/model_controller/segtran_inference.py] *)

(** What [load_model_state] needs of the values stored in an argument
    namespace: Python's [==] and [!=], and the literals the function writes
    itself. *)
Class PyValue (value : Type) : Type := {
  py_eq : value → value → bool;
  py_ne : value → value → bool;
  py_str : string → value;
  py_int : Z → value;
  py_bool : bool → value
}.

Module SegtranInference.
Section LoadModelState.
Context {value : Type} {VALUE : PyValue value}.

(** Tensors, and the network object with the two methods the function calls
    on it. *)
Context {tensor net : Type}.

(** A Python [dict] with string keys, in insertion order. *)
Definition dict (V : Type) : Type := list (string * V).

(** [d[k]]. *)
Fixpoint dict_get {V : Type} (d : dict V) (k : string) : option V :=
  match d with
  | [] => None
  | (k', v) :: d => if decide (k' = k) then Some v else dict_get d k
  end.

(** [d[k] = v]: an existing key keeps its place, a new one goes last. *)
Fixpoint dict_set {V : Type} (d : dict V) (k : string) (v : V) : dict V :=
  match d with
  | [] => [(k, v)]
  | (k', v') :: d =>
      if decide (k' = k) then (k, v) :: d else (k', v') :: dict_set d k v
  end.

(** The objects found in a checkpoint file or in a state dict. *)
Inductive pobj : Type :=
| PTensor (t : tensor)
| PParams (p : gmap string tensor)
| PArgs (d : dict value)
| PVal (v : value)
| PInt (z : Z).

(** [torch.load(path, map_location=torch.device(device))],
    [net.state_dict()], and the network after [net.load_state_dict(params)],
    which is torch's and may raise. *)
Variable torch_load : string → value → result (gmap string pobj).
Variable net_state_dict : net → gmap string pobj.
Variable load_state_dict : net → gmap string pobj → result net.

(** [o[k]] on a dictionary held in a [gmap]. *)
Definition getitem {V : Type} (o : gmap string V) (k : string) : result V :=
  match o !! k with
  | Some v => Ok v
  | None => Raise (KeyError k)
  end.

Definition ignored_keys : list string :=
  ["maxiter"; "checkpoint_path"; "model_input_size"; "t_total"; "num_workers";
   "lr_warmup_ratio"; "lr_warmup_steps"; "local_rank"; "distributed";
   "world_size";
   "seed"; "debug"; "test_ds_name"; "test_ds_name"; "batch_size";
   "dropout_prob";
   "orig_patch_size"; "input_patch_size"; "D_pool_K"; "binarize";
   "checkpoint_dir"; "iters"; "out_origsize"; "out_softscores";
   "verbose_output";
   "gpu"; "test_interp"; "do_remove_frag"; "reload_mask"; "saveiter";
   "job_name"; "ds_names"; "train_ds_names"; "dice_warmup_steps"; "opt"; "lr";
   "decay";
   "grad_clip"; "localization_prob"; "tune_bn_only"; "MAX_DICE_W";
   "deterministic";
   "lr_schedule"; "out_fpn_do_dropout"; "randscale"; "do_affine";
   "focus_class";
   "bce_weight"; "D_scale"; "orig_input_size"; "input_scale";
   "mean"; "std"; "mask_thres"; "use_pretrained";
   "only_first_linear_in_squeeze";
   "perturb_posw_range"].

Definition old_default_keys : dict value :=
  [("out_fpn_upsampleD_scheme", py_str "interpolate");
   ("num_recurrences", py_int 1);
   ("qk_have_bias", py_bool true)].

(** [for k in old_default_keys: if k not in args: args2.__dict__[k] = ...]. *)
Fixpoint fill_old_defaults (args : gmap string value)
    (defaults : dict value) (args2 : gmap string value)
  : gmap string value :=
  match defaults with
  | [] => args2
  | (k, v) :: defaults =>
      fill_old_defaults args defaults
        (match args !! k with
         | None => <[k := v]> args2
         | Some _ => args2
         end)
  end.

(** A line printed before exiting: the key and the two values. *)
Record report : Type := mkReport {
  rep_key : string;
  rep_given : value;
  rep_stored : value
}.

(** A function body that prints and then returns or raises. *)
Definition IO (A : Type) : Type := list report * result A.

Definition io_ret {A : Type} (a : A) : IO A := ([], Ok a).
Definition io_bind {A B : Type} (m : IO A) (k : A → IO B) : IO B :=
  match m with
  | (out, Ok a) => let '(out', r) := k a in (out ++ out', r)
  | (out, Raise e) => (out, Raise e)
  end.
Definition io_lift {A : Type} (r : result A) : IO A := ([], r).
Definition print (line : report) : IO unit := ([line], Ok tt).
(** The builtin [exit(code)]. *)
Definition py_exit {A : Type} (code : Z) : IO A := ([], Raise (SystemExit code)).

Arguments io_ret : simpl never.
Arguments io_bind : simpl never.
Arguments io_lift : simpl never.
Arguments print : simpl never.
Arguments py_exit : simpl never.

Declare Scope io_scope.
Delimit Scope io_scope with io.
Notation "x <- c1 ;; c2" := (io_bind c1 (λ x, c2))
  (at level 100, c1 at next level, right associativity) : io_scope.
Notation "c1 ;; c2" := (io_bind c1 (λ _, c2))
  (at level 100, right associativity) : io_scope.
Local Open Scope io_scope.

(** [for k in cp_args: if (k not in ignored_keys) and
    (args2.__dict__[k] != cp_args[k]): print(...); exit(0)], over the keys
    still to visit. *)
Fixpoint check_keys (args2 : gmap string value) (cp_args : dict value)
    (keys : list string) : IO unit :=
  match keys with
  | [] => io_ret tt
  | k :: keys =>
      (if bool_decide (k ∉ ignored_keys) then
         given <- io_lift (getitem args2 k) ;;
         stored <- io_lift (match dict_get cp_args k with
                            | Some v => Ok v
                            | None => Raise (KeyError k)
                            end) ;;
         if py_ne given stored then
           print (mkReport k given stored) ;;
           py_exit 0
         else io_ret tt
       else io_ret tt) ;;
      check_keys args2 cp_args keys
  end.

(** [params.update(model_state_dict)]: [model_state_dict] is the whole
    checkpoint dictionary ([inl]) or its entry ['model'] ([inr]). *)
Definition update (params : gmap string pobj)
    (model_state_dict : gmap string pobj + pobj)
  : result (gmap string pobj) :=
  match model_state_dict with
  | inl state_dict => Ok (state_dict ∪ params)
  | inr (PParams p) => Ok ((PTensor <$> p) ∪ params)
  | inr (PArgs d) => Ok (list_to_map (prod_map id PVal <$> d) ∪ params)
  | inr (PTensor _) | inr (PVal _) | inr (PInt _) => Raise TypeError
  end.

(** [load_model_state(net, args, checkpoint_path)]; [args] is the
    namespace's [__dict__]. *)
Definition load_model_state (n : net) (args : gmap string value)
    (checkpoint_path : string) : IO net :=
  device <- io_lift (getattr args "device") ;;
  state_dict <- io_lift (torch_load checkpoint_path device) ;;
  device <- io_lift (getattr args "device") ;;
  state_args <- io_lift (getitem state_dict "args") ;;
  state_dict <- io_lift
    (match state_args with
     | PArgs d =>
         Ok (<["args" := PArgs (dict_set d "device" device)]> state_dict)
     | _ => Raise TypeError
     end) ;;
  let params := net_state_dict n in
  sel <- (if bool_decide (is_Some (state_dict !! "model")) then
            model_state_dict <- io_lift (getitem state_dict "model") ;;
            cp_args <- io_lift (getitem state_dict "args") ;;
            cp_iter_num <- io_lift (getitem state_dict "iter_num") ;;
            io_ret (inr model_state_dict, Some cp_args)
          else
            io_ret (inl state_dict, None)) ;;
  let '(model_state_dict, cp_args) := sel in
  let args2 := args in
  net_name <- io_lift (getattr args "net") ;;
  (if py_eq net_name (py_str "segtran") then
     match cp_args with
     | Some cp_args =>
         let args2 := fill_old_defaults args old_default_keys args2 in
         match cp_args with
         | PArgs d => check_keys args2 d d.*1
         | _ => io_lift (Raise TypeError)
         end
     | None => io_ret tt
     end
   else io_ret tt) ;;
  params <- io_lift (update params model_state_dict) ;;
  io_lift (load_state_dict n params).

(** *** The two loops *)

(** A checkpoint key passes the second loop: it is ignored, or the supplied
    arguments hold a value for it that [!=] does not tell from the stored
    one. *)
Definition key_agrees (args2 : gmap string value) (cp_args : dict value)
    (k : string) : Prop :=
  k ∈ ignored_keys
  ∨ ∃ given stored,
      args2 !! k = Some given ∧ dict_get cp_args k = Some stored
      ∧ py_ne given stored = false.

Lemma io_bind_ret_l {A B : Type} (a : A) (k : A → IO B) :
  io_bind (io_ret a) k = k a.
Proof. unfold io_bind, io_ret. by destruct (k a). Qed.

Lemma io_bind_lift_Ok_l {A B : Type} (a : A) (k : A → IO B) :
  io_bind (io_lift (Ok a)) k = k a.
Proof. apply io_bind_ret_l. Qed.

Ltac io_step := repeat (rewrite io_bind_ret_l || rewrite io_bind_lift_Ok_l).

Lemma dict_get_is_Some {V : Type} (d : dict V) k :
  k ∈ d.*1 → is_Some (dict_get d k).
Proof.
  induction d as [|[k' v] d IH]; simpl.
  - by intros ?%elem_of_nil.
  - intros [->|Hin]%elem_of_cons.
    + rewrite decide_True by done. eauto.
    + destruct (decide (k' = k)); eauto.
Qed.

Lemma check_keys_cons_agrees args2 cp_args k keys :
  key_agrees args2 cp_args k →
  check_keys args2 cp_args (k :: keys) = check_keys args2 cp_args keys.
Proof.
  intros [Hign | (given & stored & Hg & Hs & Hne)]; simpl.
  - rewrite bool_decide_false by (by intros ?).
    by rewrite io_bind_ret_l.
  - destruct (bool_decide (k ∉ ignored_keys)); [| by rewrite io_bind_ret_l].
    unfold getitem. rewrite Hg, Hs. io_step. rewrite Hne. io_step.
    reflexivity.
Qed.

Lemma check_keys_consistent args2 cp_args keys :
  Forall (key_agrees args2 cp_args) keys →
  check_keys args2 cp_args keys = io_ret tt.
Proof.
  induction 1 as [|k keys Hk _ IH]; [done |].
  by rewrite check_keys_cons_agrees.
Qed.

Lemma check_keys_key_error args2 cp_args pre k post :
  Forall (key_agrees args2 cp_args) pre →
  k ∉ ignored_keys →
  args2 !! k = None →
  check_keys args2 cp_args (pre ++ k :: post) = ([], Raise (KeyError k)).
Proof.
  intros Hpre Hk Hnone.
  induction Hpre as [|k' pre Hk' _ IH]; simpl app.
  - simpl. rewrite bool_decide_true by done.
    unfold getitem. by rewrite Hnone.
  - by rewrite check_keys_cons_agrees.
Qed.

Lemma check_keys_exit args2 cp_args pre k post given stored :
  (∀ k', k' ∈ pre → is_Some (dict_get cp_args k')) →
  (∀ k', k' ∈ pre → k' ∉ ignored_keys → is_Some (args2 !! k')) →
  k ∉ ignored_keys →
  args2 !! k = Some given →
  dict_get cp_args k = Some stored →
  py_ne given stored = true →
  ∃ line, check_keys args2 cp_args (pre ++ k :: post)
          = ([line], Raise (SystemExit 0)).
Proof.
  intros Hcp Hpre Hk Hg Hs Hne.
  induction pre as [|k' pre IH]; simpl app.
  - exists (mkReport k given stored). simpl.
    rewrite bool_decide_true by done.
    unfold getitem. rewrite Hg, Hs. io_step. rewrite Hne.
    reflexivity.
  - destruct IH as [line IH].
    { intros k'' Hin. apply Hcp. by right. }
    { intros k'' Hin. apply Hpre. by right. }
    destruct (decide (k' ∈ ignored_keys)) as [Hign | Hign].
    { exists line. rewrite check_keys_cons_agrees; [done | by left]. }
    destruct (Hpre k') as [given' Hg']; [by left | done |].
    destruct (Hcp k') as [stored' Hs']; [by left |].
    destruct (py_ne given' stored') eqn:Hne'.
    + exists (mkReport k' given' stored'). simpl.
      rewrite bool_decide_true by done.
      unfold getitem. rewrite Hg', Hs'. io_step. rewrite Hne'.
      reflexivity.
    + exists line. rewrite check_keys_cons_agrees; [done |].
      right. by exists given', stored'.
Qed.

(** With a checkpoint that stores its arguments and a supplied net type
    ['segtran'], the function is the second loop followed by the update and
    torch's [load_state_dict]. *)
Lemma load_model_state_eq n args checkpoint_path
    device net_name state_dict d model iter_num :
  args !! "device" = Some device →
  args !! "net" = Some net_name →
  py_eq net_name (py_str "segtran") = true →
  torch_load checkpoint_path device = Ok state_dict →
  state_dict !! "args" = Some (PArgs d) →
  state_dict !! "model" = Some model →
  state_dict !! "iter_num" = Some iter_num →
  load_model_state n args checkpoint_path
    = (check_keys (fill_old_defaults args old_default_keys args)
         (dict_set d "device" device) (dict_set d "device" device).*1 ;;
       params <- io_lift (update (net_state_dict n) (inr model)) ;;
       io_lift (load_state_dict n params)).
Proof.
  intros Hdev Hnet Hseg Hload Hargs Hmodel Hiter.
  unfold load_model_state, getattr, getitem.
  rewrite Hdev. io_step. rewrite Hload. io_step.
  rewrite Hargs. io_step.
  rewrite lookup_insert_ne by done. rewrite Hmodel.
  rewrite bool_decide_true by eauto.
  rewrite lookup_insert_eq.
  rewrite (lookup_insert_ne _ "args" "iter_num") by done.
  rewrite Hiter. io_step. rewrite Hnet. io_step. rewrite Hseg.
  reflexivity.
Qed.

(** A checkpoint that holds ['model'] but no ['iter_num']: the read of
    [state_dict['iter_num']] raises, before the net type is looked at. *)
Lemma load_model_state_no_iter_num n args checkpoint_path
    device state_dict d model :
  args !! "device" = Some device →
  torch_load checkpoint_path device = Ok state_dict →
  state_dict !! "args" = Some (PArgs d) →
  state_dict !! "model" = Some model →
  state_dict !! "iter_num" = None →
  load_model_state n args checkpoint_path
    = ([], Raise (KeyError "iter_num")).
Proof.
  intros Hdev Hload Hargs Hmodel Hiter.
  unfold load_model_state, getattr, getitem.
  rewrite Hdev. io_step. rewrite Hload. io_step.
  rewrite Hargs. io_step.
  rewrite lookup_insert_ne by done. rewrite Hmodel.
  rewrite bool_decide_true by eauto.
  rewrite lookup_insert_eq.
  rewrite (lookup_insert_ne _ "args" "iter_num") by done.
  by rewrite Hiter.
Qed.

(** C6, as the code has it.  The supplied arguments have the attributes
    [device] and [net], the net type is ['segtran'], and the checkpoint that
    [torch.load] returns holds a dictionary ['args'] and a parameter
    dictionary ['model'].

    If the checkpoint holds no ['iter_num'], the function raises
    [KeyError('iter_num')] and compares nothing.

    Otherwise, with [args2] the supplied arguments after the old defaults
    are filled in and [cp_args] the checkpoint's arguments (their ['device']
    overwritten by the supplied one):
    - the function prints one line and exits with code 0 when some key of
      [cp_args] outside the ignored list has a value in [args2] that differs
      from the stored one, and every non-ignored key before it in the
      checkpoint's order has a value in [args2];
    - it calls [net.load_state_dict] on the network's parameters updated
      with the checkpoint's and returns the network, when every key of
      [cp_args] is ignored or has an equal value in [args2] (an exception of
      [load_state_dict] is passed on);
    - it raises [KeyError] at the first non-ignored key that [args2] lacks,
      when the keys before it are ignored or have equal values. *)
Theorem load_model_state_checks n args checkpoint_path
    device net_name state_dict d p :
  args !! "device" = Some device →
  args !! "net" = Some net_name →
  py_eq net_name (py_str "segtran") = true →
  torch_load checkpoint_path device = Ok state_dict →
  state_dict !! "args" = Some (PArgs d) →
  state_dict !! "model" = Some (PParams p) →
  let args2 := fill_old_defaults args old_default_keys args in
  let cp_args := dict_set d "device" device in
  match state_dict !! "iter_num" with
  | None =>
      load_model_state n args checkpoint_path
        = ([], Raise (KeyError "iter_num"))
  | Some _ =>
      (∀ pre k post given stored,
         cp_args.*1 = pre ++ k :: post →
         k ∉ ignored_keys →
         args2 !! k = Some given →
         dict_get cp_args k = Some stored →
         py_ne given stored = true →
         (∀ k', k' ∈ pre → k' ∉ ignored_keys → is_Some (args2 !! k')) →
         ∃ line, load_model_state n args checkpoint_path
                 = ([line], Raise (SystemExit 0)))
      ∧ (Forall (key_agrees args2 cp_args) cp_args.*1 →
         load_model_state n args checkpoint_path
           = ([], load_state_dict n ((PTensor <$> p) ∪ net_state_dict n)))
      ∧ (∀ pre k post,
           cp_args.*1 = pre ++ k :: post →
           Forall (key_agrees args2 cp_args) pre →
           k ∉ ignored_keys →
           args2 !! k = None →
           load_model_state n args checkpoint_path
             = ([], Raise (KeyError k)))
  end.
Proof.
  intros Hdev Hnet Hseg Hload Hargs Hmodel args2 cp_args.
  destruct (state_dict !! "iter_num") as [iter_num|] eqn:Hiter.
  2: { by apply (load_model_state_no_iter_num n args checkpoint_path
                   device state_dict d (PParams p)). }
  rewrite (load_model_state_eq n args checkpoint_path device net_name
             state_dict d (PParams p) iter_num) by done.
  fold args2 cp_args. split; [| split].
  - intros pre k post given stored Hkeys Hk Hg Hs Hne Hpre.
    destruct (check_keys_exit args2 cp_args pre k post given stored)
      as [line Hline]; try done.
    { intros k' Hin. apply dict_get_is_Some. rewrite Hkeys.
      apply elem_of_app. by left. }
    exists line. by rewrite Hkeys, Hline.
  - intros Hall. rewrite check_keys_consistent by done.
    io_step. simpl update. by io_step.
  - intros pre k post Hkeys Hpre Hk Hnone.
    by rewrite Hkeys, (check_keys_key_error args2 cp_args pre k post).
Qed.

(** *** Further properties of [load_model_state] and [convert_args] *)

Lemma dict_get_set_eq {V : Type} (d : dict V) k (v : V) :
  dict_get (dict_set d k v) k = Some v.
Proof.
  induction d as [|[k' v'] d IH]; simpl.
  - by rewrite decide_True.
  - destruct (decide (k' = k)) as [->|Hne]; simpl.
    + by rewrite decide_True.
    + by rewrite decide_False.
Qed.

Lemma dict_get_set_ne {V : Type} (d : dict V) k k' (v : V) :
  k ≠ k' → dict_get (dict_set d k v) k' = dict_get d k'.
Proof.
  intros Hne. induction d as [|[k'' v''] d IH]; simpl.
  - by rewrite decide_False.
  - destruct (decide (k'' = k)) as [->|Hne']; simpl.
    + by rewrite !decide_False.
    + destruct (decide (k'' = k')); [done | apply IH].
Qed.

Lemma dict_get_Some_key {V : Type} (d : dict V) k :
  k ∈ d.*1 ↔ is_Some (dict_get d k).
Proof.
  split; [apply dict_get_is_Some |].
  induction d as [|[k' v] d IH]; simpl.
  - by intros [? ?].
  - destruct (decide (k' = k)) as [->|Hne]; intros Hs.
    + by left.
    + right. by apply IH.
Qed.

Lemma fill_old_defaults_spec (args : gmap string value) (k : string)
    (defaults : dict value) : ∀ args2,
  NoDup defaults.*1 →
  fill_old_defaults args defaults args2 !! k
    = match args !! k, dict_get defaults k with
      | None, Some v => Some v
      | _, _ => args2 !! k
      end.
Proof.
  induction defaults as [|[k' v] defaults IH]; intros args2 Hnd; simpl.
  - by destruct (args !! k).
  - apply NoDup_cons in Hnd as [Hnotin Hnd]. rewrite IH by done.
    destruct (decide (k' = k)) as [->|Hne].
    + destruct (dict_get defaults k) eqn:Hget.
      { exfalso. apply Hnotin. apply dict_get_Some_key. eauto. }
      destruct (args !! k); [done |]. apply lookup_insert_eq.
    + destruct (args !! k'); destruct (args !! k);
        try destruct (dict_get defaults k);
        try done; by rewrite lookup_insert_ne.
Qed.

Lemma old_default_keys_NoDup : NoDup old_default_keys.*1.
Proof.
  unfold old_default_keys. simpl.
  apply (bool_decide_unpack _). vm_compute. exact I.
Qed.

Lemma fill_old_defaults_keeps (args : gmap string value) k v :
  args !! k = Some v →
  fill_old_defaults args old_default_keys args !! k = Some v.
Proof.
  intros Hk. rewrite fill_old_defaults_spec by apply old_default_keys_NoDup.
  by rewrite Hk.
Qed.

(** X10. The old defaults never override a supplied argument: after the
    first loop, a key the supplied arguments hold keeps its value; a key they
    lack gets its old default if it is one of the three old-default keys and
    stays absent otherwise. *)
Theorem fill_old_defaults_lookup (args : gmap string value) (k : string) :
  fill_old_defaults args old_default_keys args !! k
    = match args !! k with
      | Some v => Some v
      | None => dict_get old_default_keys k
      end.
Proof.
  rewrite fill_old_defaults_spec by apply old_default_keys_NoDup.
  destruct (args !! k) eqn:Hk;
    by destruct (dict_get old_default_keys k).
Qed.

(** X11. A checkpoint without an ['args'] entry cannot be loaded, whatever
    the net type: the device is written into [state_dict['args']] before the
    test for ['model'], so the function raises [KeyError('args')] and
    neither prints nor loads. *)
Theorem load_model_state_no_args n args checkpoint_path device state_dict :
  args !! "device" = Some device →
  torch_load checkpoint_path device = Ok state_dict →
  state_dict !! "args" = None →
  load_model_state n args checkpoint_path = ([], Raise (KeyError "args")).
Proof.
  intros Hdev Hload Hargs. unfold load_model_state, getattr, getitem.
  rewrite Hdev. io_step. rewrite Hload. io_step. by rewrite Hargs.
Qed.

(** X12. The supplied arguments have the attributes [device] and [net], the
    net type is not ['segtran'], and the checkpoint that [torch.load]
    returns holds a dictionary ['args'] and a parameter dictionary
    ['model'].  If the checkpoint holds no ['iter_num'] the function raises
    [KeyError('iter_num')].  Otherwise the stored arguments are not compared
    at all: whatever they are, the function prints nothing, calls
    [net.load_state_dict] on the network's parameters updated with the
    checkpoint's and returns the network (an exception of [load_state_dict]
    is passed on). *)
Theorem load_model_state_other_net n args checkpoint_path
    device net_name state_dict d p :
  args !! "device" = Some device →
  args !! "net" = Some net_name →
  py_eq net_name (py_str "segtran") = false →
  torch_load checkpoint_path device = Ok state_dict →
  state_dict !! "args" = Some (PArgs d) →
  state_dict !! "model" = Some (PParams p) →
  load_model_state n args checkpoint_path
    = match state_dict !! "iter_num" with
      | None => ([], Raise (KeyError "iter_num"))
      | Some _ =>
          ([], load_state_dict n ((PTensor <$> p) ∪ net_state_dict n))
      end.
Proof.
  intros Hdev Hnet Hseg Hload Hargs Hmodel.
  destruct (state_dict !! "iter_num") as [iter_num|] eqn:Hiter.
  2: { by apply (load_model_state_no_iter_num n args checkpoint_path
                   device state_dict d (PParams p)). }
  unfold load_model_state, getattr, getitem.
  rewrite Hdev. io_step. rewrite Hload. io_step.
  rewrite Hargs. io_step.
  rewrite lookup_insert_ne by done. rewrite Hmodel.
  rewrite bool_decide_true by eauto.
  rewrite lookup_insert_eq.
  rewrite (lookup_insert_ne _ "args" "iter_num") by done.
  rewrite Hiter. io_step. rewrite Hnet. io_step. rewrite Hseg.
  io_step. simpl update. by io_step.
Qed.

(** X13. A checkpoint that has ['args'] but no ['model'] entry is taken as a
    bare state dictionary: nothing is compared, even for net type
    ['segtran'], and the whole checkpoint dictionary is merged into the
    network's parameters, so [load_state_dict] is handed a dictionary whose
    key ['args'] holds the stored arguments (with the supplied device). *)
Theorem load_model_state_bare n args checkpoint_path
    device net_name state_dict d :
  args !! "device" = Some device →
  args !! "net" = Some net_name →
  torch_load checkpoint_path device = Ok state_dict →
  state_dict !! "args" = Some (PArgs d) →
  state_dict !! "model" = None →
  ∃ params,
    load_model_state n args checkpoint_path = ([], load_state_dict n params)
    ∧ params !! "args" = Some (PArgs (dict_set d "device" device))
    ∧ ∀ k, k ≠ "args" →
        params !! k = match state_dict !! k with
                      | Some o => Some o
                      | None => net_state_dict n !! k
                      end.
Proof.
  intros Hdev Hnet Hload Hargs Hmodel.
  exists (<["args" := PArgs (dict_set d "device" device)]> state_dict
            ∪ net_state_dict n).
  split; [| split].
  - unfold load_model_state, getattr, getitem.
    rewrite Hdev. io_step. rewrite Hload. io_step.
    rewrite Hargs. io_step.
    rewrite lookup_insert_ne by done. rewrite Hmodel.
    rewrite bool_decide_false by (by intros [? ?]).
    io_step. rewrite Hnet. io_step.
    destruct (py_eq net_name (py_str "segtran")); io_step;
      simpl update; by io_step.
  - apply lookup_union_Some_l. apply lookup_insert_eq.
  - intros k Hk. rewrite lookup_union, lookup_insert_ne by done.
    destruct (state_dict !! k), (net_state_dict n !! k); done.
Qed.

(** X14. The device a checkpoint was saved with never stops the loading:
    the stored ['device'] is overwritten with the supplied one before the
    comparison.  The supplied arguments have the attributes [device] and
    [net], the net type is ['segtran'], and the checkpoint that [torch.load]
    returns holds a dictionary ['args'] and a parameter dictionary
    ['model']; the supplied device does not differ from itself under [!=],
    and every non-ignored stored key other than ['device'] has an equal
    value among the supplied arguments (after the old defaults).  Then,
    whatever the stored device is: if the checkpoint holds no ['iter_num']
    the function raises [KeyError('iter_num')]; otherwise it prints nothing,
    calls [net.load_state_dict] on the network's parameters updated with the
    checkpoint's and returns the network. *)
Theorem load_model_state_device_override n args checkpoint_path
    device net_name state_dict d p :
  args !! "device" = Some device →
  args !! "net" = Some net_name →
  py_eq net_name (py_str "segtran") = true →
  torch_load checkpoint_path device = Ok state_dict →
  state_dict !! "args" = Some (PArgs d) →
  state_dict !! "model" = Some (PParams p) →
  py_ne device device = false →
  (∀ k stored,
     k ≠ "device" → k ∉ ignored_keys → dict_get d k = Some stored →
     ∃ given,
       fill_old_defaults args old_default_keys args !! k = Some given
       ∧ py_ne given stored = false) →
  load_model_state n args checkpoint_path
    = match state_dict !! "iter_num" with
      | None => ([], Raise (KeyError "iter_num"))
      | Some _ =>
          ([], load_state_dict n ((PTensor <$> p) ∪ net_state_dict n))
      end.
Proof.
  intros Hdev Hnet Hseg Hload Hargs Hmodel Hrefl Hothers.
  destruct (state_dict !! "iter_num") as [iter_num|] eqn:Hiter.
  2: { by apply (load_model_state_no_iter_num n args checkpoint_path
                   device state_dict d (PParams p)). }
  rewrite (load_model_state_eq n args checkpoint_path device net_name
             state_dict d (PParams p) iter_num) by done.
  rewrite check_keys_consistent.
  { io_step. simpl update. by io_step. }
  apply Forall_forall. intros k Hk.
  destruct (decide (k ∈ ignored_keys)) as [Hign|Hign]; [by left |].
  right. destruct (decide (k = "device")) as [->|Hne].
  - exists device, device.
    rewrite (fill_old_defaults_keeps args "device" device Hdev).
    rewrite dict_get_set_eq. done.
  - apply dict_get_Some_key in Hk as [stored Hstored].
    rewrite dict_get_set_ne in Hstored by done.
    destruct (Hothers k stored Hne Hign Hstored) as (given & Hg & Hn).
    exists given, stored. by rewrite dict_get_set_ne.
Qed.

(** [argparse.ArgumentParser().parse_args()]: the namespace parsed from the
    command line by a parser without arguments, or the exit it performs. *)
Variable parse_args : result (gmap string value).

(** [convert_args(args)], [args] being a dictionary. *)
Definition convert_args (args : dict value) : result (gmap string value) :=
  (new_args <-? parse_args ;;
   Ok (foldl (λ new_args kv, <[kv.1 := kv.2]> new_args) new_args args))%result.

Lemma convert_args_foldl (args : dict value) :
  ∀ (ns : gmap string value) k,
  NoDup args.*1 →
  foldl (λ new_args kv, <[kv.1 := kv.2]> new_args) ns args !! k
    = match dict_get args k with
      | Some v => Some v
      | None => ns !! k
      end.
Proof.
  induction args as [|[k' v] args IH]; intros ns k Hnd; simpl; [done |].
  apply NoDup_cons in Hnd as [Hnotin Hnd]. rewrite IH by done.
  destruct (decide (k' = k)) as [->|Hne].
  - destruct (dict_get args k) eqn:Hget.
    + exfalso. apply Hnotin. apply dict_get_Some_key. eauto.
    + simpl. apply lookup_insert_eq.
  - simpl. by rewrite lookup_insert_ne.
Qed.

(** X15. [convert_args] turns every entry of the dictionary into an
    attribute of the namespace and keeps the parser's other attributes.
    Consequently, when neither the dictionary nor the parsed namespace has a
    ['device'], [load_model_state] on the converted arguments raises
    [AttributeError('device')] for every network and path. *)
Theorem convert_args_lookup (args : dict value) (ns : gmap string value) :
  parse_args = Ok ns →
  NoDup args.*1 →
  ∃ new_args,
    convert_args args = Ok new_args
    ∧ (∀ k, new_args !! k = match dict_get args k with
                            | Some v => Some v
                            | None => ns !! k
                            end)
    ∧ (dict_get args "device" = None → ns !! "device" = None →
       ∀ n checkpoint_path,
         load_model_state n new_args checkpoint_path
           = ([], Raise (AttributeError "device"))).
Proof.
  intros Hparse Hnd. unfold convert_args. rewrite Hparse. simpl.
  eexists. split; [done |]. split.
  - intros k. by apply convert_args_foldl.
  - intros Hd Hns n checkpoint_path.
    unfold load_model_state, getattr.
    by rewrite convert_args_foldl, Hd, Hns by done.
Qed.
End LoadModelState.

(** *** A concrete checkpoint store *)

Inductive simple_value : Type :=
| VNone
| VBool (b : bool)
| VInt (z : Z)
| VStr (s : string).

(** Python's [==] on these values; [bool] is a subtype of [int]. *)
Definition simple_eq (a b : simple_value) : bool :=
  match a, b with
  | VNone, VNone => true
  | VBool x, VBool y => Bool.eqb x y
  | VBool x, VInt y | VInt y, VBool x => (if x then 1 else 0) =? y
  | VInt x, VInt y => x =? y
  | VStr x, VStr y => String.eqb x y
  | _, _ => false
  end.

#[export] Instance simple_PyValue : PyValue simple_value := {|
  py_eq := simple_eq;
  py_ne := λ a b, negb (simple_eq a b);
  py_str := VStr;
  py_int := VInt;
  py_bool := VBool
|}.

(** The supplied arguments. *)
Definition demo_args : gmap string simple_value :=
  <["device" := VStr "cpu"]>
    (<["net" := VStr "segtran"]>
       (<["num_classes" := VInt 4]> (<["lr" := VInt 1]> ∅))).

Definition demo_checkpoint (cp_args : dict simple_value)
  : gmap string (pobj (value := simple_value) (tensor := Z)) :=
  <["model" := PParams (<["conv.weight" := 7]> ∅)]>
    (<["args" := PArgs cp_args]> (<["iter_num" := PInt 51000]> ∅)).

Definition same_cp_args : dict simple_value :=
  [("net", VStr "segtran"); ("lr", VInt 5); ("num_classes", VInt 4);
   ("device", VStr "cuda"); ("num_recurrences", VInt 1)].

(** A checkpoint saved without its iteration number. *)
Definition no_iter_checkpoint (cp_args : dict simple_value)
  : gmap string (pobj (value := simple_value) (tensor := Z)) :=
  <["model" := PParams (<["conv.weight" := 7]> ∅)]>
    (<["args" := PArgs cp_args]> ∅).

(** Five checkpoint files: one that agrees with [demo_args], one trained with
    two classes, one whose arguments hold a key [demo_args] lacks, one with
    such a key ahead of the differing number of classes, and one that agrees
    with [demo_args] but holds no ['iter_num']. *)
Definition demo_torch_load (path : string) (device : simple_value)
  : result (gmap string (pobj (value := simple_value) (tensor := Z))) :=
  if String.eqb path "same.pth" then
    Ok (demo_checkpoint same_cp_args)
  else if String.eqb path "two_classes.pth" then
    Ok (demo_checkpoint
          [("net", VStr "segtran"); ("lr", VInt 5); ("num_classes", VInt 2)])
  else if String.eqb path "extra_key.pth" then
    Ok (demo_checkpoint
          [("net", VStr "segtran"); ("translayer_squeeze_ratios", VInt 2);
           ("num_classes", VInt 4)])
  else if String.eqb path "extra_then_two.pth" then
    Ok (demo_checkpoint
          [("net", VStr "segtran"); ("translayer_squeeze_ratios", VInt 2);
           ("num_classes", VInt 2)])
  else if String.eqb path "no_iter.pth" then
    Ok (no_iter_checkpoint same_cp_args)
  else Raise (Foreign "FileNotFoundError").

(** A network that is its state dictionary. *)
Definition demo_load_model_state
  : gmap string (pobj (value := simple_value) (tensor := Z)) →
    gmap string simple_value → string →
    IO (value := simple_value)
       (gmap string (pobj (value := simple_value) (tensor := Z))) :=
  load_model_state demo_torch_load id (λ _ params, Ok params).

Example load_same :
  demo_load_model_state ∅ demo_args "same.pth"
    = ([], Ok (<["conv.weight" := PTensor 7]> ∅)).
Proof. vm_compute. reflexivity. Qed.

Example load_two_classes :
  demo_load_model_state ∅ demo_args "two_classes.pth"
    = ([mkReport "num_classes" (VInt 4) (VInt 2)], Raise (SystemExit 0)).
Proof. vm_compute. reflexivity. Qed.

(** The claim as the specification words it fails on a checkpoint whose
    arguments hold a non-ignored key the supplied arguments lack: the function
    neither exits nor loads, it raises [KeyError]; and it does so even when a
    later key has a differing value.  It fails as well on a checkpoint that
    holds ['model'] and ['args'] agreeing with the supplied ones, but no
    ['iter_num']: nothing is loaded. *)
Lemma load_model_state_counterexample :
  demo_load_model_state ∅ demo_args "extra_key.pth"
    = ([], Raise (KeyError "translayer_squeeze_ratios"))
  ∧ demo_load_model_state ∅ demo_args "extra_then_two.pth"
    = ([], Raise (KeyError "translayer_squeeze_ratios"))
  ∧ ("num_classes" ∉ ignored_keys)
  ∧ demo_args !! "num_classes" = Some (VInt 4)
  ∧ py_ne (VInt 4) (VInt 2) = true
  ∧ demo_load_model_state ∅ demo_args "no_iter.pth"
    = ([], Raise (KeyError "iter_num")).
Proof.
  split; [vm_compute; reflexivity |].
  split; [vm_compute; reflexivity |].
  split; [| repeat split; vm_compute; reflexivity].
  apply (bool_decide_eq_true_1 _). vm_compute. reflexivity.
Qed.

(** Membership in a list of concrete keys, by cases. *)
Ltac key_cases H :=
  repeat (apply elem_of_cons in H as [-> | H]);
  try (by apply elem_of_nil in H).

(** A concrete key outside the ignored list. *)
Ltac not_ignored :=
  apply (bool_decide_unpack _); vm_compute; exact I.

(** A concrete key that passes the comparison with the values given. *)
Ltac agrees given stored :=
  right; exists given, stored; repeat split; vm_compute; reflexivity.

(** Every key of the checkpoint ["same.pth"] passes the comparison with
    [demo_args]: the net type and the number of classes are equal, the
    learning rate is ignored, the stored device has been overwritten, and
    the number of recurrences equals the old default. *)
Lemma same_cp_args_key_agrees :
  Forall
    (key_agrees (fill_old_defaults demo_args old_default_keys demo_args)
       (dict_set same_cp_args "device" (VStr "cpu")))
    (dict_set same_cp_args "device" (VStr "cpu")).*1.
Proof.
  repeat apply Forall_cons_2; [ | | | | | apply Forall_nil_2].
  - agrees (VStr "segtran") (VStr "segtran").
  - left. not_ignored.
  - agrees (VInt 4) (VInt 4).
  - agrees (VStr "cpu") (VStr "cpu").
  - agrees (VInt 1) (VInt 1).
Defined.

Lemma load_model_state_checks_witness :
  let p : gmap string Z := <["conv.weight" := 7]> ∅ in
  let n : gmap string (pobj (value := simple_value) (tensor := Z)) := ∅ in
  let two := [("net", VStr "segtran"); ("lr", VInt 5);
              ("num_classes", VInt 2)] in
  let extra := [("net", VStr "segtran");
                ("translayer_squeeze_ratios", VInt 2);
                ("num_classes", VInt 4)] in
  demo_args !! "device" = Some (VStr "cpu")
  ∧ demo_args !! "net" = Some (VStr "segtran")
  ∧ py_eq (VStr "segtran") (py_str "segtran") = true
  ∧ demo_torch_load "same.pth" (VStr "cpu")
    = Ok (demo_checkpoint same_cp_args)
  ∧ demo_checkpoint same_cp_args !! "args" = Some (PArgs same_cp_args)
  ∧ demo_checkpoint same_cp_args !! "model" = Some (PParams p)
  ∧ demo_load_model_state n demo_args "same.pth"
    = ([], Ok ((PTensor <$> p) ∪ n))
  ∧ demo_torch_load "two_classes.pth" (VStr "cpu") = Ok (demo_checkpoint two)
  ∧ (∃ line, demo_load_model_state n demo_args "two_classes.pth"
             = ([line], Raise (SystemExit 0)))
  ∧ demo_torch_load "extra_key.pth" (VStr "cpu") = Ok (demo_checkpoint extra)
  ∧ demo_load_model_state n demo_args "extra_key.pth"
    = ([], Raise (KeyError "translayer_squeeze_ratios"))
  ∧ demo_torch_load "no_iter.pth" (VStr "cpu")
    = Ok (no_iter_checkpoint same_cp_args)
  ∧ demo_load_model_state n demo_args "no_iter.pth"
    = ([], Raise (KeyError "iter_num")).
Proof.
  cbv zeta.
  assert (Hdev : demo_args !! "device" = Some (VStr "cpu"))
    by (vm_compute; reflexivity).
  assert (Hnet : demo_args !! "net" = Some (VStr "segtran"))
    by (vm_compute; reflexivity).
  assert (Hseg : py_eq (VStr "segtran") (py_str "segtran") = true)
    by (vm_compute; reflexivity).
  do 3 (split; [assumption |]).
  do 3 (split; [vm_compute; reflexivity |]).
  split; [| split; [vm_compute; reflexivity |];
            split; [| split; [vm_compute; reflexivity |];
                      split; [| split; [vm_compute; reflexivity |]]]].
  - (* every key agrees: the parameters are loaded *)
    pose proof (load_model_state_checks demo_torch_load id
                  (λ _ params, Ok params) ∅ demo_args "same.pth"
                  (VStr "cpu") (VStr "segtran")
                  (demo_checkpoint same_cp_args) same_cp_args
                  (<["conv.weight" := 7]> ∅) Hdev Hnet Hseg
                  ltac:(vm_compute; reflexivity)
                  ltac:(vm_compute; reflexivity)
                  ltac:(vm_compute; reflexivity)) as H.
    cbv zeta in H.
    replace (demo_checkpoint same_cp_args !! "iter_num")
      with (Some (PInt (value := simple_value) (tensor := Z) 51000))
      in H by (vm_compute; reflexivity).
    destruct H as (_ & Hloads & _).
    exact (Hloads same_cp_args_key_agrees).
  - (* a differing number of classes: exit *)
    pose proof (load_model_state_checks demo_torch_load id
                  (λ _ params, Ok params) ∅ demo_args "two_classes.pth"
                  (VStr "cpu") (VStr "segtran")
                  (demo_checkpoint
                     [("net", VStr "segtran"); ("lr", VInt 5);
                      ("num_classes", VInt 2)])
                  [("net", VStr "segtran"); ("lr", VInt 5);
                   ("num_classes", VInt 2)]
                  (<["conv.weight" := 7]> ∅) Hdev Hnet Hseg
                  ltac:(vm_compute; reflexivity)
                  ltac:(vm_compute; reflexivity)
                  ltac:(vm_compute; reflexivity)) as H.
    cbv zeta in H.
    replace (demo_checkpoint _ !! "iter_num")
      with (Some (PInt (value := simple_value) (tensor := Z) 51000))
      in H by (vm_compute; reflexivity).
    destruct H as (Hexits & _ & _).
    apply (Hexits ["net"; "lr"] "num_classes" ["device"]
             (VInt 4) (VInt 2)); try (vm_compute; reflexivity).
    + not_ignored.
    + intros k' Hin _. key_cases Hin.
      * exists (VStr "segtran"). vm_compute. reflexivity.
      * exists (VInt 1). vm_compute. reflexivity.
  - (* a stored key the supplied arguments lack: KeyError *)
    pose proof (load_model_state_checks demo_torch_load id
                  (λ _ params, Ok params) ∅ demo_args "extra_key.pth"
                  (VStr "cpu") (VStr "segtran")
                  (demo_checkpoint
                     [("net", VStr "segtran");
                      ("translayer_squeeze_ratios", VInt 2);
                      ("num_classes", VInt 4)])
                  [("net", VStr "segtran");
                   ("translayer_squeeze_ratios", VInt 2);
                   ("num_classes", VInt 4)]
                  (<["conv.weight" := 7]> ∅) Hdev Hnet Hseg
                  ltac:(vm_compute; reflexivity)
                  ltac:(vm_compute; reflexivity)
                  ltac:(vm_compute; reflexivity)) as H.
    cbv zeta in H.
    replace (demo_checkpoint _ !! "iter_num")
      with (Some (PInt (value := simple_value) (tensor := Z) 51000))
      in H by (vm_compute; reflexivity).
    destruct H as (_ & _ & Hkey).
    apply (Hkey ["net"] "translayer_squeeze_ratios"
             ["num_classes"; "device"]); try (vm_compute; reflexivity).
    + apply Forall_cons_2; [| apply Forall_nil_2].
      agrees (VStr "segtran") (VStr "segtran").
    + not_ignored.
  - (* no iteration number: KeyError *)
    pose proof (load_model_state_checks demo_torch_load id
                  (λ _ params, Ok params) ∅ demo_args "no_iter.pth"
                  (VStr "cpu") (VStr "segtran")
                  (no_iter_checkpoint same_cp_args) same_cp_args
                  (<["conv.weight" := 7]> ∅) Hdev Hnet Hseg
                  ltac:(vm_compute; reflexivity)
                  ltac:(vm_compute; reflexivity)
                  ltac:(vm_compute; reflexivity)) as H.
    cbv zeta in H.
    replace (no_iter_checkpoint same_cp_args !! "iter_num")
      with (@None (pobj (value := simple_value) (tensor := Z)))
      in H by (vm_compute; reflexivity).
    exact H.
Defined.

(** *** The further properties on concrete checkpoints *)

(** Two bare checkpoint files: parameters only, and parameters beside the
    stored arguments. *)
Definition bare_torch_load (path : string) (device : simple_value)
  : result (gmap string (pobj (value := simple_value) (tensor := Z))) :=
  if String.eqb path "weights.pth" then
    Ok (<["conv.weight" := PTensor 3]> ∅)
  else if String.eqb path "weights_args.pth" then
    Ok (<["conv.weight" := PTensor 3]>
          (<["args" := PArgs [("net", VStr "segtran")]]> ∅))
  else Raise (Foreign "FileNotFoundError").

Definition bare_load_model_state
  : gmap string (pobj (value := simple_value) (tensor := Z)) →
    gmap string simple_value → string →
    IO (value := simple_value)
       (gmap string (pobj (value := simple_value) (tensor := Z))) :=
  load_model_state bare_torch_load id (λ _ params, Ok params).

(** The supplied arguments for another net type. *)
Definition unet_args : gmap string simple_value :=
  <["net" := VStr "unet"]> demo_args.

Lemma load_model_state_no_args_witness :
  demo_args !! "device" = Some (VStr "cpu")
  ∧ bare_torch_load "weights.pth" (VStr "cpu")
    = Ok (<["conv.weight" := PTensor 3]> ∅)
  ∧ (<["conv.weight" := PTensor 3]> ∅
       : gmap string (pobj (value := simple_value) (tensor := Z)))
      !! "args" = None
  ∧ bare_load_model_state ∅ demo_args "weights.pth"
    = ([], Raise (KeyError "args")).
Proof.
  do 3 (split; [vm_compute; reflexivity |]).
  apply (load_model_state_no_args bare_torch_load id (λ _ params, Ok params)
           ∅ demo_args "weights.pth" (VStr "cpu")
           (<["conv.weight" := PTensor 3]> ∅));
    vm_compute; reflexivity.
Defined.

Lemma load_model_state_other_net_witness :
  let d := [("net", VStr "segtran"); ("lr", VInt 5); ("num_classes", VInt 2)] in
  let p : gmap string Z := <["conv.weight" := 7]> ∅ in
  let n : gmap string (pobj (value := simple_value) (tensor := Z)) := ∅ in
  unet_args !! "device" = Some (VStr "cpu")
  ∧ unet_args !! "net" = Some (VStr "unet")
  ∧ py_eq (VStr "unet") (py_str "segtran") = false
  ∧ demo_torch_load "two_classes.pth" (VStr "cpu") = Ok (demo_checkpoint d)
  ∧ demo_checkpoint d !! "args" = Some (PArgs d)
  ∧ demo_checkpoint d !! "model" = Some (PParams p)
  ∧ demo_load_model_state n unet_args "two_classes.pth"
    = ([], Ok ((PTensor <$> p) ∪ n))
  ∧ demo_torch_load "no_iter.pth" (VStr "cpu")
    = Ok (no_iter_checkpoint same_cp_args)
  ∧ no_iter_checkpoint same_cp_args !! "args" = Some (PArgs same_cp_args)
  ∧ no_iter_checkpoint same_cp_args !! "model" = Some (PParams p)
  ∧ demo_load_model_state n unet_args "no_iter.pth"
    = ([], Raise (KeyError "iter_num")).
Proof.
  cbv zeta.
  do 6 (split; [vm_compute; reflexivity |]).
  split; [| do 3 (split; [vm_compute; reflexivity |])].
  - exact (load_model_state_other_net demo_torch_load id
             (λ _ params, Ok params) ∅ unet_args "two_classes.pth"
             (VStr "cpu") (VStr "unet")
             (demo_checkpoint
                [("net", VStr "segtran"); ("lr", VInt 5);
                 ("num_classes", VInt 2)])
             [("net", VStr "segtran"); ("lr", VInt 5);
              ("num_classes", VInt 2)]
             (<["conv.weight" := 7]> ∅)
             ltac:(vm_compute; reflexivity) ltac:(vm_compute; reflexivity)
             ltac:(vm_compute; reflexivity) ltac:(vm_compute; reflexivity)
             ltac:(vm_compute; reflexivity) ltac:(vm_compute; reflexivity)).
  - exact (load_model_state_other_net demo_torch_load id
             (λ _ params, Ok params) ∅ unet_args "no_iter.pth"
             (VStr "cpu") (VStr "unet")
             (no_iter_checkpoint same_cp_args) same_cp_args
             (<["conv.weight" := 7]> ∅)
             ltac:(vm_compute; reflexivity) ltac:(vm_compute; reflexivity)
             ltac:(vm_compute; reflexivity) ltac:(vm_compute; reflexivity)
             ltac:(vm_compute; reflexivity) ltac:(vm_compute; reflexivity)).
Defined.

Lemma load_model_state_bare_witness :
  let d := [("net", VStr "segtran")] in
  let state_dict
    : gmap string (pobj (value := simple_value) (tensor := Z)) :=
    <["conv.weight" := PTensor 3]> (<["args" := PArgs d]> ∅) in
  let n : gmap string (pobj (value := simple_value) (tensor := Z)) := ∅ in
  demo_args !! "device" = Some (VStr "cpu")
  ∧ demo_args !! "net" = Some (VStr "segtran")
  ∧ bare_torch_load "weights_args.pth" (VStr "cpu") = Ok state_dict
  ∧ state_dict !! "args" = Some (PArgs d)
  ∧ state_dict !! "model" = None
  ∧ ∃ params,
      bare_load_model_state n demo_args "weights_args.pth"
        = ([], Ok params)
      ∧ params !! "args" = Some (PArgs (dict_set d "device" (VStr "cpu")))
      ∧ ∀ k, k ≠ "args" →
          params !! k = match state_dict !! k with
                        | Some o => Some o
                        | None => n !! k
                        end.
Proof.
  cbv zeta.
  do 5 (split; [vm_compute; reflexivity |]).
  apply (load_model_state_bare bare_torch_load id (λ _ params, Ok params)
           ∅ demo_args "weights_args.pth" (VStr "cpu") (VStr "segtran")
           (<["conv.weight" := PTensor 3]>
              (<["args" := PArgs [("net", VStr "segtran")]]> ∅))
           [("net", VStr "segtran")]);
    vm_compute; reflexivity.
Defined.

Lemma same_cp_args_agree k stored :
  k ≠ "device" → k ∉ ignored_keys →
  dict_get same_cp_args k = Some stored →
  ∃ given,
    fill_old_defaults demo_args old_default_keys demo_args !! k = Some given
    ∧ py_ne given stored = false.
Proof.
  intros Hne Hign. unfold same_cp_args. simpl.
  destruct (decide ("net" = k)) as [<-|_].
  { intros [= <-]. exists (VStr "segtran"). split; vm_compute; reflexivity. }
  destruct (decide ("lr" = k)) as [<-|_].
  { exfalso. apply Hign. apply (bool_decide_unpack _). vm_compute. exact I. }
  destruct (decide ("num_classes" = k)) as [<-|_].
  { intros [= <-]. exists (VInt 4). split; vm_compute; reflexivity. }
  destruct (decide ("device" = k)) as [<-|_]; [done |].
  destruct (decide ("num_recurrences" = k)) as [<-|_]; [| discriminate].
  intros [= <-]. exists (VInt 1). split; vm_compute; reflexivity.
Defined.

Lemma load_model_state_device_override_witness :
  let p : gmap string Z := <["conv.weight" := 7]> ∅ in
  let n : gmap string (pobj (value := simple_value) (tensor := Z)) := ∅ in
  demo_args !! "device" = Some (VStr "cpu")
  ∧ demo_args !! "net" = Some (VStr "segtran")
  ∧ py_eq (VStr "segtran") (py_str "segtran") = true
  ∧ demo_torch_load "same.pth" (VStr "cpu") = Ok (demo_checkpoint same_cp_args)
  ∧ demo_checkpoint same_cp_args !! "args" = Some (PArgs same_cp_args)
  ∧ demo_checkpoint same_cp_args !! "model" = Some (PParams p)
  ∧ dict_get same_cp_args "device" = Some (VStr "cuda")
  ∧ py_ne (VStr "cpu") (VStr "cpu") = false
  ∧ (∀ k stored,
       k ≠ "device" → k ∉ ignored_keys →
       dict_get same_cp_args k = Some stored →
       ∃ given,
         fill_old_defaults demo_args old_default_keys demo_args !! k
           = Some given
         ∧ py_ne given stored = false)
  ∧ demo_load_model_state n demo_args "same.pth"
    = ([], Ok ((PTensor <$> p) ∪ n))
  ∧ demo_torch_load "no_iter.pth" (VStr "cpu")
    = Ok (no_iter_checkpoint same_cp_args)
  ∧ no_iter_checkpoint same_cp_args !! "args" = Some (PArgs same_cp_args)
  ∧ no_iter_checkpoint same_cp_args !! "model" = Some (PParams p)
  ∧ demo_load_model_state n demo_args "no_iter.pth"
    = ([], Raise (KeyError "iter_num")).
Proof.
  cbv zeta.
  do 8 (split; [vm_compute; reflexivity |]).
  split; [exact same_cp_args_agree |].
  split; [| do 3 (split; [vm_compute; reflexivity |])].
  - exact (load_model_state_device_override demo_torch_load id
             (λ _ params, Ok params) ∅ demo_args "same.pth"
             (VStr "cpu") (VStr "segtran") (demo_checkpoint same_cp_args)
             same_cp_args (<["conv.weight" := 7]> ∅)
             ltac:(vm_compute; reflexivity) ltac:(vm_compute; reflexivity)
             ltac:(vm_compute; reflexivity) ltac:(vm_compute; reflexivity)
             ltac:(vm_compute; reflexivity) ltac:(vm_compute; reflexivity)
             ltac:(vm_compute; reflexivity) same_cp_args_agree).
  - exact (load_model_state_device_override demo_torch_load id
             (λ _ params, Ok params) ∅ demo_args "no_iter.pth"
             (VStr "cpu") (VStr "segtran")
             (no_iter_checkpoint same_cp_args)
             same_cp_args (<["conv.weight" := 7]> ∅)
             ltac:(vm_compute; reflexivity) ltac:(vm_compute; reflexivity)
             ltac:(vm_compute; reflexivity) ltac:(vm_compute; reflexivity)
             ltac:(vm_compute; reflexivity) ltac:(vm_compute; reflexivity)
             ltac:(vm_compute; reflexivity) same_cp_args_agree).
Defined.

(** A configuration dictionary without a device, and a command line without
    arguments. *)
Definition demo_config : dict simple_value :=
  [("net", VStr "segtran"); ("num_classes", VInt 4)].

Lemma demo_config_NoDup : NoDup demo_config.*1.
Proof. apply (bool_decide_unpack _). vm_compute. exact I. Defined.

Lemma convert_args_lookup_witness :
  let parse_args : result (gmap string simple_value) := Ok ∅ in
  parse_args = Ok ∅
  ∧ NoDup demo_config.*1
  ∧ ∃ new_args,
      convert_args parse_args demo_config = Ok new_args
      ∧ (∀ k, new_args !! k = match dict_get demo_config k with
                              | Some v => Some v
                              | None => (∅ : gmap string simple_value) !! k
                              end)
      ∧ (dict_get demo_config "device" = None →
         (∅ : gmap string simple_value) !! "device" = None →
         ∀ n checkpoint_path,
           demo_load_model_state n new_args checkpoint_path
             = ([], Raise (AttributeError "device"))).
Proof.
  cbv zeta. split; [reflexivity |]. split; [exact demo_config_NoDup |].
  apply (convert_args_lookup demo_torch_load id (λ _ params, Ok params)
           (Ok ∅) demo_config ∅ eq_refl demo_config_NoDup).
Defined.
End SegtranInference.

(** ** [app/handlers/file_reader.py] *)

(** [int(x)] for a float [x], here an exact rational: truncation towards
    zero. *)
Definition py_int_of_Q (x : Q) : Z := Z.quot (Qnum x) (Z.pos (Qden x)).

Lemma py_int_of_Q_integral (x : Q) (m : Z) :
  (x == inject_Z m)%Q → py_int_of_Q x = m.
Proof.
  unfold Qeq, py_int_of_Q. simpl. intros H.
  rewrite Z.mul_1_r in H. rewrite H. apply Z.quot_mul. lia.
Qed.

Module FileReader.
Section ReadMask.
(** VTK's objects, opaque here: colours, extractors, actors, the renderer;
    [scalar] is the type of the opacity and smoothness settings. *)
Context {color scalar extractor actor renderer : Type}.

(** [NiiLabel] and [NiiObject] of [objects/nii_object.py], which is not among
    the sources at hand: the attributes are the ones [file_reader.py] uses.
    A new [NiiObject] has no labels ([read_brain] appends one label and then
    addresses it as [labels[0]]); a new [NiiLabel] has no extractor and no
    actor yet. *)
Record NiiLabel : Type := mkNiiLabel {
  label_color : color;
  label_opacity : scalar;
  label_smoothness : scalar;
  label_extractor : option extractor;
  label_actor : option actor
}.

(** A volume reader as [read_mask] sees it: [GetDataExtent()] and
    [GetOutput().GetScalarRange()]. *)
Record VolumeReader : Type := mkVolumeReader {
  GetDataExtent : Z * Z * Z * Z * Z * Z;
  GetScalarRange : Q * Q
}.

Record NiiObject : Type := mkNiiObject {
  file : option string;
  reader : option VolumeReader;
  extent : option (Z * Z * Z * Z * Z * Z);
  labels : list NiiLabel
}.

Definition NiiObject_new : NiiObject := mkNiiObject None None None [].

Definition NiiLabel_new (c : color) (opacity smoothness : scalar) : NiiLabel :=
  mkNiiLabel c opacity smoothness None None.

Definition set_labels (mask : NiiObject) (l : list NiiLabel) : NiiObject :=
  mkNiiObject (file mask) (reader mask) (extent mask) l.

Definition set_extractor (l : NiiLabel) (e : extractor) : NiiLabel :=
  mkNiiLabel (label_color l) (label_opacity l) (label_smoothness l)
    (Some e) (label_actor l).

(** A [FileReader] instance. *)
Record FileReader : Type := mkFileReader {
  _renderer : option renderer
}.

(** [__init__]. *)
Definition init : FileReader := mkFileReader None.

(** The [renderer] property setter. *)
Definition set_renderer (self : FileReader) (rend : renderer) : FileReader :=
  mkFileReader (Some rend).

(** The configuration constants of [utils/config.py] and the helpers of
    [handlers/vtk_handler.py] that [read_mask] uses; none of them is among
    the sources at hand.  [add_surface_rendering] works on the mask object in
    place, [AddActor] on the renderer. *)
Variable MASK_COLORS : gmap string (list color).
Variable MASK_OPACITY MASK_SMOOTHNESS : scalar.
Variable read_volume : string → VolumeReader.
Variable create_mask_extractor : NiiObject → extractor.
Variable add_surface_rendering : NiiObject → nat → Z → NiiObject.
Variable AddActor : renderer → option actor → renderer.

(** One pass of [for label_idx in range(n_labels)]. *)
Definition read_mask_body (mask_type : string) (label_idx : nat)
    (mask : NiiObject) (self : FileReader) : result NiiObject * FileReader :=
  match MASK_COLORS !! mask_type with
  | None => (Raise TypeError, self)
  | Some colors =>
    match py_index colors (Z.of_nat label_idx) with
    | Raise e => (Raise e, self)
    | Ok c =>
      let mask :=
        set_labels mask
          (labels mask ++ [NiiLabel_new c MASK_OPACITY MASK_SMOOTHNESS]) in
      let e := create_mask_extractor mask in
      match py_index (labels mask) (Z.of_nat label_idx) with
      | Raise e => (Raise e, self)
      | Ok l =>
        let mask :=
          set_labels mask (<[label_idx := set_extractor l e]> (labels mask)) in
        let mask :=
          add_surface_rendering mask label_idx (Z.of_nat label_idx + 1) in
        match _renderer self with
        | None => (Raise (AttributeError "AddActor"), self)
        | Some r =>
          match py_index (labels mask) (Z.of_nat label_idx) with
          | Raise e => (Raise e, self)
          | Ok l => (Ok mask, mkFileReader (Some (AddActor r (label_actor l))))
          end
        end
      end
    end
  end.

Fixpoint read_mask_loop (mask_type : string) (idxs : list nat)
    (mask : NiiObject) (self : FileReader) : result NiiObject * FileReader :=
  match idxs with
  | [] => (Ok mask, self)
  | label_idx :: idxs =>
    match read_mask_body mask_type label_idx mask self with
    | (Ok mask, self) => read_mask_loop mask_type idxs mask self
    | (Raise e, self) => (Raise e, self)
    end
  end.

(** [del l[i]] for a non-negative literal [i]. *)
Definition py_del {A : Type} (l : list A) (i : nat) : result (list A) :=
  if decide (i < length l)%nat then Ok (delete i l) else Raise IndexError.

(** [read_mask(self, file_name, mask_type)]: the mask returned or the
    exception raised, the instance afterwards, and the number printed. *)
Definition read_mask (self : FileReader) (file_name mask_type : string)
  : result NiiObject * FileReader * list nat :=
  let mask := NiiObject_new in
  let mask := mkNiiObject (Some file_name) (reader mask) (extent mask)
                (labels mask) in
  let rd := read_volume file_name in
  let mask := mkNiiObject (file mask) (Some rd) (extent mask) (labels mask) in
  let mask := mkNiiObject (file mask) (reader mask) (Some (GetDataExtent rd))
                (labels mask) in
  let n_labels := py_int_of_Q (GetScalarRange rd).2 in
  match read_mask_loop mask_type (seq 0 (Z.to_nat n_labels)) mask self with
  | (Raise e, self) => (Raise e, self, [])
  | (Ok mask, self) =>
    match py_del (labels mask) 2 with
    | Raise e => (Raise e, self, [])
    | Ok l =>
      let mask := set_labels mask l in
      (Ok mask, self, [length (labels mask)])
    end
  end.

(** The mask object when the loop starts. *)
Definition opened_mask (file_name : string) : NiiObject :=
  mkNiiObject (Some file_name) (Some (read_volume file_name))
    (Some (GetDataExtent (read_volume file_name))) [].

Section Loop.
Variables (mask_type : string) (colors : list color).
Hypothesis mask_colors : MASK_COLORS !! mask_type = Some colors.
Hypothesis surface_keeps_labels : ∀ mask i v,
  length (labels (add_surface_rendering mask i v)) = length (labels mask).


End Loop.


(** *** Further properties of [read_mask] *)

(** The loop over two index lists in a row. *)
Lemma read_mask_loop_app mask_type idxs1 idxs2 : ∀ mask self,
  read_mask_loop mask_type (idxs1 ++ idxs2) mask self
    = match read_mask_loop mask_type idxs1 mask self with
      | (Ok mask, self) => read_mask_loop mask_type idxs2 mask self
      | (Raise e, self) => (Raise e, self)
      end.
Proof.
  induction idxs1 as [|i idxs1 IH]; intros mask self; simpl; [done |].
  destruct (read_mask_body mask_type i mask self) as [[mask'|e] self'];
    [apply IH | done].
Qed.

(** A pass of the loop on a reader with a renderer, keeping track of the
    actor added. *)
Lemma read_mask_body_actor mask_type colors k mask r :
  MASK_COLORS !! mask_type = Some colors →
  (∀ mask i v,
     length (labels (add_surface_rendering mask i v))
       = length (labels mask)) →
  length (labels mask) = k →
  (k < length colors)%nat →
  ∃ mask' a,
    read_mask_body mask_type k mask (mkFileReader (Some r))
      = (Ok mask', mkFileReader (Some (AddActor r a)))
    ∧ length (labels mask') = S k.
Proof.
  intros Hcolors Hkeep Hk Hlt. unfold read_mask_body.
  rewrite Hcolors, !py_index_nat.
  destruct (lookup_lt_is_Some_2 colors k Hlt) as [c ->].
  cbv beta iota zeta. simpl labels. rewrite py_index_nat.
  rewrite lookup_app_r by lia. rewrite Hk, Nat.sub_diag.
  cbn [lookup list_lookup _renderer]. rewrite py_index_nat.
  match goal with
  | |- context [add_surface_rendering ?m ?i ?v] =>
      set (mask2 := add_surface_rendering m i v);
      assert (Hlen : length (labels mask2) = S k)
  end.
  { unfold mask2. rewrite Hkeep. simpl labels.
    rewrite length_insert, length_app. simpl. lia. }
  destruct (lookup_lt_is_Some_2 (labels mask2) k) as [l ->]; [lia |].
  eauto.
Qed.

Lemma read_mask_loop_actors mask_type colors m : ∀ k mask r,
  MASK_COLORS !! mask_type = Some colors →
  (∀ mask i v,
     length (labels (add_surface_rendering mask i v))
       = length (labels mask)) →
  length (labels mask) = k →
  (k + m ≤ length colors)%nat →
  ∃ mask' actors,
    read_mask_loop mask_type (seq k m) mask (mkFileReader (Some r))
      = (Ok mask', mkFileReader (Some (foldl AddActor r actors)))
    ∧ length actors = m
    ∧ length (labels mask') = (k + m)%nat.
Proof.
  induction m as [|m IH]; intros k mask r Hcolors Hkeep Hk Hle; simpl.
  - exists mask, []. split; [done |]. split; [done | lia].
  - destruct (read_mask_body_actor mask_type colors k mask r)
      as (mask1 & a & -> & Hlen1); [done | done | done | lia |].
    destruct (IH (S k) mask1 (AddActor r a) Hcolors Hkeep Hlen1)
      as (mask' & actors & -> & Hactors & Hlen'); [lia |].
    exists mask', (a :: actors). simpl.
    split; [done |]. split; [by rewrite Hactors | lia].
Qed.

(** X16. A mask whose maximum scalar value truncates to zero or less makes
    [read_mask] raise [IndexError], whatever the mask type and whether or not
    a renderer is set: no label is created, so there is no index 2 to
    delete.  The reader is left as it was and nothing is printed. *)
Theorem read_mask_no_labels self file_name mask_type :
  py_int_of_Q (GetScalarRange (read_volume file_name)).2 ≤ 0 →
  read_mask self file_name mask_type = (Raise IndexError, self, []).
Proof.
  intros Hn. unfold read_mask.
  replace (Z.to_nat _) with 0%nat by lia. reflexivity.
Qed.

(** X17. With at least one label to create, a mask type that [MASK_COLORS]
    does not know makes [read_mask] raise [TypeError] ([None] is subscripted)
    before anything is created or rendered. *)
Theorem read_mask_unknown_type self file_name mask_type :
  1 ≤ py_int_of_Q (GetScalarRange (read_volume file_name)).2 →
  MASK_COLORS !! mask_type = None →
  read_mask self file_name mask_type = (Raise TypeError, self, []).
Proof.
  intros Hn Hcolors. unfold read_mask.
  destruct (Z.to_nat _) as [|n'] eqn:Hnat; [lia |].
  simpl. unfold read_mask_body. by rewrite Hcolors.
Qed.

(** X18. With at least one label to create and a colour for it, a reader
    whose renderer was never set makes [read_mask] raise [AttributeError] in
    the first pass of the loop; the reader is left as it was. *)
Theorem read_mask_without_renderer self file_name mask_type colors c :
  1 ≤ py_int_of_Q (GetScalarRange (read_volume file_name)).2 →
  MASK_COLORS !! mask_type = Some colors →
  colors !! 0%nat = Some c →
  _renderer self = None →
  read_mask self file_name mask_type
    = (Raise (AttributeError "AddActor"), self, []).
Proof.
  intros Hn Hcolors Hc Hr. unfold read_mask.
  destruct (Z.to_nat _) as [|n'] eqn:Hnat; [lia |].
  simpl. unfold read_mask_body.
  rewrite Hcolors, (py_index_nat colors 0), Hc.
  cbv beta iota zeta. simpl labels.
  rewrite (py_index_nat _ 0). simpl. by rewrite Hr.
Qed.

(** X19. With a renderer set, a colour for every label index and a helper
    [add_surface_rendering] that keeps the number of labels, [read_mask]
    adds one actor to the renderer for every label it creates, [m] in all
    for a maximum scalar value [m], whether it then returns
    a mask with [m - 1] labels or raises [IndexError] because [m < 3]: a
    failed read is not undone in the renderer, and after a successful one the
    renderer holds one actor more than the mask has labels. *)
Theorem read_mask_renderer_actors self file_name mask_type colors r (m : Z) :
  _renderer self = Some r →
  MASK_COLORS !! mask_type = Some colors →
  (Z.to_nat m ≤ length colors)%nat →
  ((GetScalarRange (read_volume file_name)).2 == inject_Z m)%Q →
  (∀ mask i v,
     length (labels (add_surface_rendering mask i v))
       = length (labels mask)) →
  ∃ actors,
    length actors = Z.to_nat m
    ∧ (read_mask self file_name mask_type).1.2
      = mkFileReader (Some (foldl AddActor r actors)).
Proof.
  intros Hr Hcolors Hlen Hrange Hkeep.
  destruct self as [rend]. simpl in Hr. subst rend.
  destruct (read_mask_loop_actors mask_type colors (Z.to_nat m) 0%nat
              (opened_mask file_name) r Hcolors Hkeep)
    as (created & actors & Hloop & Hactors & Hcreated); [done | simpl; lia |].
  exists actors. split; [done |].
  unfold read_mask. rewrite (py_int_of_Q_integral _ m Hrange).
  change (mkNiiObject _ _ _ _) with (opened_mask file_name).
  rewrite Hloop. by destruct (py_del (labels created) 2).
Qed.

(** X20. When the mask has more label values than [MASK_COLORS] has colours
    for the mask type, [read_mask] raises [IndexError] at the first label
    without a colour; by then it has added one actor per colour to the
    renderer. *)
Theorem read_mask_too_few_colors self file_name mask_type colors r (m : Z) :
  _renderer self = Some r →
  MASK_COLORS !! mask_type = Some colors →
  (length colors < Z.to_nat m)%nat →
  ((GetScalarRange (read_volume file_name)).2 == inject_Z m)%Q →
  (∀ mask i v,
     length (labels (add_surface_rendering mask i v))
       = length (labels mask)) →
  ∃ actors,
    length actors = length colors
    ∧ read_mask self file_name mask_type
      = (Raise IndexError,
         mkFileReader (Some (foldl AddActor r actors)), []).
Proof.
  intros Hr Hcolors Hlen Hrange Hkeep.
  destruct self as [rend]. simpl in Hr. subst rend.
  destruct (read_mask_loop_actors mask_type colors (length colors) 0%nat
              (opened_mask file_name) r Hcolors Hkeep)
    as (created & actors & Hloop & Hactors & Hcreated); [done | simpl; lia |].
  exists actors. split; [done |].
  unfold read_mask. rewrite (py_int_of_Q_integral _ m Hrange).
  change (mkNiiObject _ _ _ _) with (opened_mask file_name).
  replace (Z.to_nat m)
    with (length colors + S (Z.to_nat m - length colors - 1))%nat by lia.
  rewrite seq_app, read_mask_loop_app, Hloop. simpl.
  unfold read_mask_body. rewrite Hcolors, py_index_nat.
  by rewrite lookup_ge_None_2 by lia.
Qed.
End ReadMask.

(** *** [setup_slice] *)

Section SetupSlice.
(** VTK's image mapper and renderer, opaque. *)
Context {mapper renderer : Type}.

(** What an attribute of the brain object may hold, as far as [setup_slice]
    reads it: [None], the data extent (a tuple of integers), the image
    mapper. *)
Inductive attr : Type :=
| ANone
| AExtent (e : list Z)
| AMapper (m : mapper).

(** A [vtkImageActor] after the calls [setup_slice] makes on it: the opacity
    of its property, the mapper whose output port feeds it, its display
    extent, and the two switches. *)
Record ImageActor : Type := mkImageActor {
  actor_opacity : Z;
  actor_input : mapper;
  actor_display_extent : Z * Z * Z * Z * Z * Z;
  actor_interpolate : bool;
  actor_force_opaque : bool
}.

(** [renderer.AddActor(actor)]. *)
Variable AddActor : renderer → ImageActor → renderer.

(** [actor.SetDisplayExtent(a, b, c, d, e, f)], VTK's, which takes six C
    [int]s: the display extent the actor has after the call, or the
    exception the call raises. *)
Variable SetDisplayExtent :
  Z → Z → Z → Z → Z → Z → result (Z * Z * Z * Z * Z * Z).

(** The values of a C [int]. *)
Definition c_int (v : Z) : Prop := - 2 ^ 31 ≤ v < 2 ^ 31.

(** [brain.extent[i]]. *)
Definition extent_item (brain : gmap string attr) (i : Z) : result Z :=
  (e <-? getattr brain "extent" ;;
   match e with
   | AExtent e => py_index e i
   | ANone | AMapper _ => Raise TypeError
   end)%result.

(** [brain.image_mapper.GetOutputPort()], identified with the mapper. *)
Definition output_port (brain : gmap string attr) : result mapper :=
  (m <-? getattr brain "image_mapper" ;;
   match m with
   | AMapper m => Ok m
   | ANone | AExtent _ => Raise (AttributeError "GetOutputPort")
   end)%result.

(** [int(z / 2)] for an int [z].  The division is Python's true division of
    two ints, whose result is the double nearest to the quotient (ties to
    even), or [OverflowError] beyond the largest double; [int] then
    truncates towards zero.  Below [2 ** 53] in absolute value the quotient
    is a double and the result is [z] halved towards zero.  From there on
    the doubles near the quotient are whole numbers [ulp] apart: [q] counts
    the steps of [ulp] in the quotient, [r] is what remains, in halves of a
    step. *)
Definition int_half (z : Z) : result Z :=
  if Z.abs z <? 2 ^ 53 then Ok (z ÷ 2)
  else
    let a := Z.abs z in
    let ulp := 2 ^ (Z.log2 a - 1 - 52) in
    let q := a / (2 * ulp) in
    let r := a mod (2 * ulp) in
    let m := if r <? ulp then q
             else if ulp <? r then q + 1
             else if Z.even q then q else q + 1 in
    if 2 ^ 1024 <=? m * ulp then Raise OverflowError
    else Ok (Z.sgn z * (m * ulp)).

(** [setup_slice(self, brain)]; [brain] is the object's attribute
    dictionary. *)
Definition setup_slice (self : FileReader (renderer := renderer))
    (brain : gmap string attr)
  : result (list ImageActor) * FileReader (renderer := renderer) :=
  match
    (x <-? extent_item brain 1 ;;
     y <-? extent_item brain 3 ;;
     z <-? extent_item brain 5 ;;
     port <-? output_port brain ;;
     z1 <-? int_half z ;;
     z2 <-? int_half z ;;
     extent <-? SetDisplayExtent 0 x 0 y z1 z2 ;;
     let axial := mkImageActor 1 port extent true true in
     port <-? output_port brain ;;
     y1 <-? int_half y ;;
     y2 <-? int_half y ;;
     extent <-? SetDisplayExtent 0 x y1 y2 0 z ;;
     let coronal := mkImageActor 1 port extent true true in
     port <-? output_port brain ;;
     x1 <-? int_half x ;;
     x2 <-? int_half x ;;
     extent <-? SetDisplayExtent x1 x2 0 y 0 z ;;
     let sagittal := mkImageActor 1 port extent true true in
     Ok (axial, coronal, sagittal))%result
  with
  | Raise e => (Raise e, self)
  | Ok (axial, coronal, sagittal) =>
      match _renderer self with
      | None => (Raise (AttributeError "AddActor"), self)
      | Some r =>
          (Ok [axial; coronal; sagittal],
           mkFileReader
             (Some (AddActor (AddActor (AddActor r axial) coronal) sagittal)))
      end
  end.

(** On a C [int] the division is exact. *)
Lemma int_half_c_int (z : Z) : c_int z → int_half z = Ok (z ÷ 2).
Proof.
  unfold c_int, int_half. intros Hz.
  assert (Hlt : Z.abs z < 2 ^ 53).
  { assert (2 ^ 31 < 2 ^ 53) by (apply Z.pow_lt_mono_r; lia). lia. }
  apply Z.ltb_lt in Hlt. by rewrite Hlt.
Qed.

(** Half of a non-negative C [int] is one, between 0 and it. *)
Lemma half_c_int (z : Z) : 0 ≤ z → c_int z → 0 ≤ z ÷ 2 ≤ z ∧ c_int (z ÷ 2).
Proof.
  unfold c_int. intros Hz Hc.
  rewrite Z.quot_div_nonneg by lia.
  assert (0 ≤ z / 2) by (apply Z.div_pos; lia).
  assert (z / 2 ≤ z) by (apply Z.div_le_upper_bound; lia).
  lia.
Qed.

(** X21. For a brain whose data extent ends at [x], [y], [z], C [int]s as
    VTK gives them and none negative, on a reader with a renderer, with a
    [SetDisplayExtent] that sets the six C [int]s it is given:
    [setup_slice] returns the axial, coronal and sagittal actors in this
    order and adds them to the renderer in the same order; each actor shows
    one plane, at [z ÷ 2], [y ÷ 2] and [x ÷ 2] respectively, an index
    between 0 and the end of its axis, and spans the other two axes from 0
    to their end, whatever the start of the data extent is. *)
Theorem setup_slice_planes self brain r m x0 x y0 y z0 z :
  (∀ a b c d e f,
     c_int a → c_int b → c_int c → c_int d → c_int e → c_int f →
     SetDisplayExtent a b c d e f = Ok (a, b, c, d, e, f)) →
  _renderer self = Some r →
  brain !! "extent" = Some (AExtent [x0; x; y0; y; z0; z]) →
  brain !! "image_mapper" = Some (AMapper m) →
  0 ≤ x → 0 ≤ y → 0 ≤ z →
  c_int x → c_int y → c_int z →
  ∃ axial coronal sagittal,
    setup_slice self brain
      = (Ok [axial; coronal; sagittal],
         mkFileReader
           (Some (AddActor (AddActor (AddActor r axial) coronal) sagittal)))
    ∧ axial = mkImageActor 1 m (0, x, 0, y, z ÷ 2, z ÷ 2) true true
    ∧ coronal = mkImageActor 1 m (0, x, y ÷ 2, y ÷ 2, 0, z) true true
    ∧ sagittal = mkImageActor 1 m (x ÷ 2, x ÷ 2, 0, y, 0, z) true true
    ∧ 0 ≤ x ÷ 2 ≤ x ∧ 0 ≤ y ÷ 2 ≤ y ∧ 0 ≤ z ÷ 2 ≤ z.
Proof.
  intros Hset Hr Hext Hmap Hx Hy Hz Hcx Hcy Hcz.
  destruct (half_c_int x Hx Hcx) as [Hhx Hchx].
  destruct (half_c_int y Hy Hcy) as [Hhy Hchy].
  destruct (half_c_int z Hz Hcz) as [Hhz Hchz].
  assert (Hc0 : c_int 0) by (unfold c_int; lia).
  unfold setup_slice, extent_item, output_port, getattr.
  rewrite Hext, Hmap. simpl.
  rewrite !int_half_c_int by done. simpl.
  rewrite !Hset by done. simpl. rewrite Hr.
  do 3 eexists. split; [reflexivity |]. done.
Qed.
End SetupSlice.

(** *** A concrete reader

    Colours are names, an actor is the label value it renders, the renderer
    is the list of actors added to it.  ["tumor.nii"] has maximum scalar
    value 4, ["small.nii"] has 2. *)

Definition demo_colors : gmap string (list string) :=
  <["tumor" := ["red"; "green"; "blue"; "yellow"]]> ∅.

Definition demo_read_volume (file_name : string) : VolumeReader :=
  mkVolumeReader (0, 239, 0, 239, 0, 154)
    (if String.eqb file_name "small.nii" then (0 # 1, 2 # 1)%Q
     else (0 # 1, 4 # 1)%Q).

Definition demo_surface
    (mask : NiiObject (color := string) (scalar := Q)
              (extractor := unit) (actor := Z))
    (label_idx : nat) (label_value : Z) : NiiObject :=
  set_labels mask
    (alter (λ l, mkNiiLabel (label_color l) (label_opacity l)
                   (label_smoothness l) (label_extractor l)
                   (Some label_value))
       label_idx (labels mask)).

Definition demo_read_mask
  : FileReader (renderer := list (option Z)) → string → string → _ :=
  read_mask demo_colors (1 # 1)%Q (1 # 2)%Q demo_read_volume (λ _, tt)
    demo_surface (λ r a, r ++ [a]).

Definition demo_label (c : string) (v : Z)
  : NiiLabel (color := string) (scalar := Q) (extractor := unit) (actor := Z) :=
  mkNiiLabel c (1 # 1)%Q (1 # 2)%Q (Some tt) (Some v).

Example read_mask_tumor :
  demo_read_mask (set_renderer init []) "tumor.nii" "tumor"
    = (Ok (mkNiiObject (Some "tumor.nii") (Some (demo_read_volume "tumor.nii"))
             (Some (0, 239, 0, 239, 0, 154))
             [demo_label "red" 1; demo_label "green" 2;
              demo_label "yellow" 4]),
       mkFileReader (Some [Some 1; Some 2; Some 3; Some 4]),
       [3%nat]).
Proof. vm_compute. reflexivity. Qed.

Example read_mask_small :
  demo_read_mask (set_renderer init []) "small.nii" "tumor"
    = (Raise IndexError, mkFileReader (Some [Some 1; Some 2]), []).
Proof. vm_compute. reflexivity. Qed.

Lemma demo_surface_keeps_labels mask i v :
  length (labels (demo_surface mask i v)) = length (labels mask).
Proof. unfold demo_surface. simpl. apply length_alter. Defined.



(** *** The further properties on the concrete reader *)

(** Two more files: ["empty.nii"] has maximum scalar value 0, ["big.nii"]
    has 6. *)
Definition demo_read_volume2 (file_name : string) : VolumeReader :=
  if String.eqb file_name "empty.nii" then
    mkVolumeReader (0, 239, 0, 239, 0, 154) (0 # 1, 0 # 1)%Q
  else if String.eqb file_name "big.nii" then
    mkVolumeReader (0, 239, 0, 239, 0, 154) (0 # 1, 6 # 1)%Q
  else demo_read_volume file_name.

Definition demo_read_mask2
  : FileReader (renderer := list (option Z)) → string → string → _ :=
  read_mask demo_colors (1 # 1)%Q (1 # 2)%Q demo_read_volume2 (λ _, tt)
    demo_surface (λ r a, r ++ [a]).

Definition demo_reader : FileReader (renderer := list (option Z)) :=
  set_renderer init [].

Lemma read_mask_no_labels_witness :
  py_int_of_Q (GetScalarRange (demo_read_volume2 "empty.nii")).2 ≤ 0
  ∧ demo_read_mask2 init "empty.nii" "edema" = (Raise IndexError, init, []).
Proof.
  split; [vm_compute; discriminate |].
  apply (read_mask_no_labels demo_colors (1 # 1)%Q (1 # 2)%Q
           demo_read_volume2 (λ _, tt) demo_surface (λ r a, r ++ [a])
           init "empty.nii" "edema").
  vm_compute. discriminate.
Defined.

Lemma read_mask_unknown_type_witness :
  1 ≤ py_int_of_Q (GetScalarRange (demo_read_volume "tumor.nii")).2
  ∧ demo_colors !! "edema" = None
  ∧ demo_read_mask demo_reader "tumor.nii" "edema"
    = (Raise TypeError, demo_reader, []).
Proof.
  split; [vm_compute; discriminate |]. split; [reflexivity |].
  apply (read_mask_unknown_type demo_colors (1 # 1)%Q (1 # 2)%Q
           demo_read_volume (λ _, tt) demo_surface (λ r a, r ++ [a])
           demo_reader "tumor.nii" "edema").
  - vm_compute. discriminate.
  - reflexivity.
Defined.

Lemma read_mask_without_renderer_witness :
  1 ≤ py_int_of_Q (GetScalarRange (demo_read_volume "tumor.nii")).2
  ∧ demo_colors !! "tumor" = Some ["red"; "green"; "blue"; "yellow"]
  ∧ ["red"; "green"; "blue"; "yellow"] !! 0%nat = Some "red"
  ∧ _renderer (init (renderer := list (option Z))) = None
  ∧ demo_read_mask init "tumor.nii" "tumor"
    = (Raise (AttributeError "AddActor"), init, []).
Proof.
  split; [vm_compute; discriminate |].
  do 3 (split; [reflexivity |]).
  apply (read_mask_without_renderer demo_colors (1 # 1)%Q (1 # 2)%Q
           demo_read_volume (λ _, tt) demo_surface (λ r a, r ++ [a])
           init "tumor.nii" "tumor" ["red"; "green"; "blue"; "yellow"] "red").
  - vm_compute. discriminate.
  - reflexivity.
  - reflexivity.
  - reflexivity.
Defined.

Lemma read_mask_renderer_actors_witness :
  let m := 2 in
  _renderer demo_reader = Some []
  ∧ demo_colors !! "tumor" = Some ["red"; "green"; "blue"; "yellow"]
  ∧ (Z.to_nat m ≤ length ["red"; "green"; "blue"; "yellow"])%nat
  ∧ ((GetScalarRange (demo_read_volume "small.nii")).2 == inject_Z m)%Q
  ∧ (∀ mask i v,
       length (labels (demo_surface mask i v)) = length (labels mask))
  ∧ ∃ actors,
      length actors = Z.to_nat m
      ∧ (demo_read_mask demo_reader "small.nii" "tumor").1.2
        = mkFileReader (Some (foldl (λ r a, r ++ [a]) [] actors)).
Proof.
  cbv zeta.
  split; [reflexivity |]. split; [reflexivity |]. split; [simpl; lia |].
  split; [reflexivity |]. split; [exact demo_surface_keeps_labels |].
  apply (read_mask_renderer_actors demo_colors (1 # 1)%Q (1 # 2)%Q
           demo_read_volume (λ _, tt) demo_surface (λ r a, r ++ [a])
           demo_reader "small.nii" "tumor"
           ["red"; "green"; "blue"; "yellow"] [] 2).
  - reflexivity.
  - reflexivity.
  - simpl. lia.
  - reflexivity.
  - exact demo_surface_keeps_labels.
Defined.

Lemma read_mask_too_few_colors_witness :
  let m := 6 in
  _renderer demo_reader = Some []
  ∧ demo_colors !! "tumor" = Some ["red"; "green"; "blue"; "yellow"]
  ∧ (length ["red"; "green"; "blue"; "yellow"] < Z.to_nat m)%nat
  ∧ ((GetScalarRange (demo_read_volume2 "big.nii")).2 == inject_Z m)%Q
  ∧ (∀ mask i v,
       length (labels (demo_surface mask i v)) = length (labels mask))
  ∧ ∃ actors,
      length actors = length ["red"; "green"; "blue"; "yellow"]
      ∧ demo_read_mask2 demo_reader "big.nii" "tumor"
        = (Raise IndexError,
           mkFileReader (Some (foldl (λ r a, r ++ [a]) [] actors)), []).
Proof.
  cbv zeta.
  split; [reflexivity |]. split; [reflexivity |]. split; [simpl; lia |].
  split; [reflexivity |]. split; [exact demo_surface_keeps_labels |].
  apply (read_mask_too_few_colors demo_colors (1 # 1)%Q (1 # 2)%Q
           demo_read_volume2 (λ _, tt) demo_surface (λ r a, r ++ [a])
           demo_reader "big.nii" "tumor"
           ["red"; "green"; "blue"; "yellow"] [] 6).
  - reflexivity.
  - reflexivity.
  - simpl. lia.
  - reflexivity.
  - exact demo_surface_keeps_labels.
Defined.

(** A brain volume of 240 by 240 by 155 voxels; the renderer is the list of
    image actors added to it. *)
Definition demo_brain : gmap string (attr (mapper := unit)) :=
  <["extent" := AExtent [0; 239; 0; 239; 0; 154]]>
    (<["image_mapper" := AMapper tt]> ∅).

(** The same volume cropped to the slices 100 to 120. *)
Definition cropped_brain : gmap string (attr (mapper := unit)) :=
  <["extent" := AExtent [0; 239; 0; 239; 100; 120]]>
    (<["image_mapper" := AMapper tt]> ∅).

Definition c_intb (v : Z) : bool := (- 2 ^ 31 <=? v) && (v <? 2 ^ 31).

(** A [SetDisplayExtent] that sets the six C [int]s it is given and raises
    on anything else. *)
Definition demo_SetDisplayExtent (a b c d e f : Z)
  : result (Z * Z * Z * Z * Z * Z) :=
  if forallb c_intb [a; b; c; d; e; f] then Ok (a, b, c, d, e, f)
  else Raise OverflowError.

Lemma c_intb_c_int v : c_int v → c_intb v = true.
Proof.
  unfold c_int, c_intb. intros [Hlo Hhi].
  apply andb_true_intro. split; [by apply Z.leb_le | by apply Z.ltb_lt].
Defined.

Lemma demo_SetDisplayExtent_c_int a b c d e f :
  c_int a → c_int b → c_int c → c_int d → c_int e → c_int f →
  demo_SetDisplayExtent a b c d e f = Ok (a, b, c, d, e, f).
Proof.
  intros Ha Hb Hc Hd He Hf. unfold demo_SetDisplayExtent. cbn [forallb].
  by rewrite !c_intb_c_int by done.
Defined.

Definition demo_setup_slice
  : FileReader (renderer := list (ImageActor (mapper := unit))) → _ → _ :=
  setup_slice (λ r a, r ++ [a]) demo_SetDisplayExtent.

Example setup_slice_demo :
  demo_setup_slice (set_renderer init []) demo_brain
    = (Ok [mkImageActor 1 tt (0, 239, 0, 239, 77, 77) true true;
           mkImageActor 1 tt (0, 239, 119, 119, 0, 154) true true;
           mkImageActor 1 tt (119, 119, 0, 239, 0, 154) true true],
       mkFileReader
         (Some [mkImageActor 1 tt (0, 239, 0, 239, 77, 77) true true;
                mkImageActor 1 tt (0, 239, 119, 119, 0, 154) true true;
                mkImageActor 1 tt (119, 119, 0, 239, 0, 154) true true])).
Proof. vm_compute. reflexivity. Qed.

(** [int(z / 2)] beyond the C [int]s: exact up to [2 ** 53], rounded to the
    nearest double from there on ([int((2 ** 53 + 3) / 2)] is
    [2 ** 52 + 2]), and an [OverflowError] beyond the largest double. *)
Example int_half_values :
  int_half 154 = Ok 77
  ∧ int_half (-7) = Ok (-3)
  ∧ int_half (2 ^ 53 - 1) = Ok (2 ^ 52 - 1)
  ∧ int_half (2 ^ 53 + 1) = Ok (2 ^ 52)
  ∧ int_half (2 ^ 53 + 3) = Ok (2 ^ 52 + 2)
  ∧ int_half (- (2 ^ 54 + 2)) = Ok (- (2 ^ 53))
  ∧ int_half (2 ^ 1025 - 2 ^ 972) = Ok (2 ^ 1024 - 2 ^ 971)
  ∧ int_half (2 ^ 1025 - 2 ^ 971) = Raise OverflowError.
Proof. repeat split; vm_compute; reflexivity. Qed.

(** An extent too large for a C [int] stops [setup_slice] at the first
    [SetDisplayExtent]. *)
Example setup_slice_overflow :
  demo_setup_slice (set_renderer init [])
    (<["extent" := AExtent [0; 239; 0; 239; 0; 2 ^ 32]]> demo_brain)
    = (Raise OverflowError, set_renderer init []).
Proof. vm_compute. reflexivity. Qed.

Lemma setup_slice_planes_witness :
  let self : FileReader (renderer := list (ImageActor (mapper := unit))) :=
    set_renderer init [] in
  let x := 239 in
  let y := 239 in
  let z := 120 in
  (∀ a b c d e f,
     c_int a → c_int b → c_int c → c_int d → c_int e → c_int f →
     demo_SetDisplayExtent a b c d e f = Ok (a, b, c, d, e, f))
  ∧ _renderer self = Some []
  ∧ cropped_brain !! "extent" = Some (AExtent [0; x; 0; y; 100; z])
  ∧ cropped_brain !! "image_mapper" = Some (AMapper tt)
  ∧ 0 ≤ x ∧ 0 ≤ y ∧ 0 ≤ z
  ∧ c_int x ∧ c_int y ∧ c_int z
  ∧ ∃ axial coronal sagittal,
      demo_setup_slice self cropped_brain
        = (Ok [axial; coronal; sagittal],
           mkFileReader (Some ((([] ++ [axial]) ++ [coronal]) ++ [sagittal])))
      ∧ axial = mkImageActor 1 tt (0, x, 0, y, z ÷ 2, z ÷ 2) true true
      ∧ coronal = mkImageActor 1 tt (0, x, y ÷ 2, y ÷ 2, 0, z) true true
      ∧ sagittal = mkImageActor 1 tt (x ÷ 2, x ÷ 2, 0, y, 0, z) true true
      ∧ 0 ≤ x ÷ 2 ≤ x ∧ 0 ≤ y ÷ 2 ≤ y ∧ 0 ≤ z ÷ 2 ≤ z.
Proof.
  cbv zeta.
  split; [exact demo_SetDisplayExtent_c_int |].
  split; [reflexivity |]. split; [reflexivity |]. split; [reflexivity |].
  split; [lia |]. split; [lia |]. split; [lia |].
  split; [unfold c_int; lia |]. split; [unfold c_int; lia |].
  split; [unfold c_int; lia |].
  apply (setup_slice_planes (λ r a, r ++ [a]) demo_SetDisplayExtent
           (set_renderer init []) cropped_brain [] tt 0 239 0 239 100 120);
    try exact demo_SetDisplayExtent_c_int;
    try reflexivity; try lia; unfold c_int; lia.
Defined.
End FileReader.
